(** * MCP platform: tool-execution pipeline and agent loop

    A shallow embedding of the Python sources of the MCP platform
    ([shared/models.py], [mcp_server/registry.py], [mcp_server/auth.py],
    [shared/schema.py], [mcp_server/audit.py], [mcp_server/router.py],
    [orchestrator/conversation.py], [orchestrator/gateway.py]) together with
    the properties stated about them.

    Conventions of the embedding:
    - a Python [dict] whose iteration order is observable is an insertion-ordered
      association list with the operations of module [PyDict]; dictionaries
      that are only looked up by key are [gmap]s; Python sets are [gset]s;
    - [str] is [string], the UTF-8 bytes of the text; keys and role names are
      compared byte-wise; [str.lower], which consults the Unicode tables, is a
      parameter of the code that calls it;
    - a method that mutates [self] takes the state and returns the new state
      next to its result; a method that can raise returns a sum;
    - clocks, uuid generation, JSON parsing, the language model, the execution
      client and the domain adapters are external: they are parameters of the
      sections that use them. *)

From Stdlib Require Import ZArith Floats Ascii String DecimalString.
From stdpp Require Import gmap strings list fin_maps sorting.

Local Open Scope string_scope.
Local Open Scope list_scope.
Set Warnings "-register-all".

(** ** Python helpers *)

Module PyStr.

(** A letter [A]-[Z] replaced by its small letter, any other byte kept. *)
Definition lower_ascii (c : ascii) : ascii :=
  let n := nat_of_ascii c in
  if (65 <=? n)%nat && (n <=? 90)%nat then ascii_of_nat (n + 32) else c.

(** The letters [A]-[Z] of a text replaced by [a]-[z]. This is not
    [str.lower], which also lowers letters outside ASCII (it maps the Kelvin
    sign U+212A to [k]); it is what [str.lower] returns for a text of ASCII
    characters only. *)
Fixpoint ascii_lower (s : string) : string :=
  match s with
  | EmptyString => EmptyString
  | String c rest => String (lower_ascii c) (ascii_lower rest)
  end.

(** [s.isascii()]: every byte is below 128. *)
Fixpoint is_ascii (s : string) : bool :=
  match s with
  | EmptyString => true
  | String c rest => (nat_of_ascii c <? 128)%nat && is_ascii rest
  end.

(** [c in s] for a one-character [c]. *)
Fixpoint contains_char (c : ascii) (s : string) : bool :=
  match s with
  | EmptyString => false
  | String d rest => if Ascii.eqb c d then true else contains_char c rest
  end.

(** [sep.join(parts)]. *)
Fixpoint join (sep : string) (parts : list string) : string :=
  match parts with
  | [] => ""
  | [p] => p
  | p :: rest => p +:+ sep +:+ join sep rest
  end.

(** [s.split(sep)[-1]] for a one-character separator: the text after the
    last occurrence of [sep], the whole string when there is none. *)
Fixpoint last_segment (sep : ascii) (s : string) : string :=
  match s with
  | EmptyString => EmptyString
  | String c rest =>
      if contains_char sep s
      then (if Ascii.eqb c sep && negb (contains_char sep rest)
            then rest else last_segment sep rest)
      else s
  end.

(** [s.split(sep)[0]]: the text before the first occurrence of [sep]. *)
Fixpoint first_segment (sep : ascii) (s : string) : string :=
  match s with
  | EmptyString => EmptyString
  | String c rest =>
      if Ascii.eqb c sep then EmptyString else String c (first_segment sep rest)
  end.

End PyStr.

Lemma fold_left_ext {A B} (f g : A -> B -> A) (l : list B) (a : A) :
  (forall x y, f x y = g x y) -> fold_left f l a = fold_left g l a.
Proof.
  intros Hfg. revert a. induction l as [|y l IH]; intros a; [reflexivity|].
  cbn [fold_left]. rewrite Hfg. apply IH.
Qed.

(** Insertion-ordered dictionaries with string keys: [d[k] = v] overwrites in
    place when [k] is present and appends otherwise, as Python's [dict]. *)
Module PyDict.

Definition t (V : Type) : Type := list (string * V).

Section Ops.
Context {V : Type}.

Fixpoint get (k : string) (d : t V) : option V :=
  match d with
  | [] => None
  | (k', v) :: rest => if String.eqb k k' then Some v else get k rest
  end.

Definition contains (k : string) (d : t V) : bool :=
  match get k d with Some _ => true | None => false end.

Fixpoint set (k : string) (v : V) (d : t V) : t V :=
  match d with
  | [] => [(k, v)]
  | (k', v') :: rest =>
      if String.eqb k k' then (k', v) :: rest else (k', v') :: set k v rest
  end.

Fixpoint del (k : string) (d : t V) : t V :=
  match d with
  | [] => []
  | (k', v') :: rest =>
      if String.eqb k k' then rest else (k', v') :: del k rest
  end.

Definition keys (d : t V) : list string := map fst d.
Definition values (d : t V) : list V := map snd d.

(** The invariant of a Python dictionary: no key occurs twice. *)
Definition wf (d : t V) : Prop := NoDup (keys d).

Lemma get_None_keys k d : get k d = None <-> k ∉ keys d.
Proof.
  induction d as [|[k' v'] rest IH]; cbn.
  - split; [intros _; apply not_elem_of_nil | done].
  - rewrite not_elem_of_cons. destruct (String.eqb_spec k k') as [->|Hne].
    + split; [done | intros [? _]; done].
    + rewrite IH. tauto.
Qed.

Lemma get_Some_keys k d v : get k d = Some v -> k ∈ keys d.
Proof.
  intros Hget. destruct (decide (k ∈ keys d)) as [|Hn]; [done|].
  apply get_None_keys in Hn. congruence.
Qed.

Lemma set_fresh k v d : k ∉ keys d -> set k v d = d ++ [(k, v)].
Proof.
  induction d as [|[k' v'] rest IH]; cbn; [done|].
  rewrite not_elem_of_cons. intros [Hne Hrest].
  destruct (String.eqb_spec k k'); [done|]. by rewrite IH.
Qed.

Lemma get_set_eq k v d : get k (set k v d) = Some v.
Proof.
  induction d as [|[k' v'] rest IH]; cbn.
  - by rewrite String.eqb_refl.
  - destruct (String.eqb_spec k k') as [->|Hne]; cbn.
    + by rewrite String.eqb_refl.
    + destruct (String.eqb_spec k k'); done.
Qed.

Lemma get_set_ne k k' v d : k <> k' -> get k' (set k v d) = get k' d.
Proof.
  intros Hne. induction d as [|[k0 v0] rest IH]; cbn.
  - destruct (String.eqb_spec k' k); congruence.
  - destruct (String.eqb_spec k k0) as [->|Hne0]; cbn.
    + destruct (String.eqb_spec k' k0); congruence.
    + destruct (String.eqb_spec k' k0); done.
Qed.

Lemma keys_set_fresh k v d : k ∉ keys d -> keys (set k v d) = keys d ++ [k].
Proof. intros Hk. rewrite set_fresh by done. unfold keys. by rewrite map_app. Qed.

End Ops.

(** Filling an empty dictionary key by key from the items of a well-formed
    one rebuilds it entry by entry, in the same order. *)
Lemma fold_set_map {V W : Type} (f : string -> V -> W) (d : t V) (acc : t W) :
  NoDup (keys acc ++ keys d) ->
  fold_left (fun r item => set (fst item) (f (fst item) (snd item)) r) d acc
  = acc ++ map (fun item => (fst item, f (fst item) (snd item))) d.
Proof.
  revert acc. induction d as [|[k v] rest IH]; intros acc Hwf; cbn.
  - by rewrite app_nil_r.
  - unfold keys in Hwf. cbn in Hwf.
    apply NoDup_app in Hwf as (Hacc & Hdisj & Hd).
    apply NoDup_cons in Hd as [Hk Hrest].
    assert (Hfresh : k ∉ keys acc).
    { intros Hin. apply (Hdisj k Hin). left. }
    rewrite set_fresh by done. rewrite IH.
    + by rewrite <- app_assoc.
    + unfold keys. rewrite map_app. cbn. rewrite <- app_assoc. cbn.
      apply NoDup_app. split_and!; [done| |by apply NoDup_cons].
      intros x Hx. apply Hdisj. done.
Qed.

Lemma get_map_values {V W : Type} (f : string -> V -> W) (k : string) (d : t V) :
  get k (map (fun item => (fst item, f (fst item) (snd item))) d)
  = option_map (f k) (get k d).
Proof.
  induction d as [|[k' v'] rest IH]; cbn; [done|].
  destruct (String.eqb_spec k k') as [->|]; done.
Qed.

End PyDict.

(** ** JSON-like values ([Any] in the sources) *)

Inductive value : Type :=
| VNone
| VBool (b : bool)
| VInt (n : Z)
| VStr (s : string)
| VList (items : list value)
| VDict (entries : list (string * value)).

(** Python truthiness of a list / dict / optional string. *)
Definition truthy_list {A} (l : list A) : bool :=
  match l with [] => false | _ => true end.

Definition truthy_str (s : string) : bool :=
  match s with EmptyString => false | _ => true end.

(** ** mcp_server/audit.py: redaction *)

Module Redaction.

Definition SENSITIVE_PARAMS : gset string :=
  {[ "password"; "token"; "secret"; "api_key"; "apikey"; "credential" ]}.

Definition REDACTED : value := VStr "[REDACTED]".

(** The denylist as the specification writes it. *)
Definition DENYLIST : list string :=
  ["password"; "token"; "secret"; "api_key"; "apikey"; "credential"].

Section WithLower.
(** [key.lower()]: Python's lowering of a text, Unicode letters included. *)
Variable str_lower : string -> string.

Definition is_sensitive (key : string) : bool :=
  bool_decide (str_lower key ∈ SENSITIVE_PARAMS).

(** One iteration of the loop of [_redact_sensitive]; [self_redact] is the
    recursive call. *)
Definition redact_item (self_redact : list (string * value) -> list (string * value))
    (redacted : PyDict.t value) (item : string * value) : PyDict.t value :=
  let '(key, val) := item in
  if is_sensitive key then PyDict.set key REDACTED redacted
  else match val with
       | VDict d => PyDict.set key (VDict (self_redact d)) redacted
       | _ => PyDict.set key val redacted
       end.

(** [_redact_sensitive], by recursion on the nesting of the parameter
    value: [redact_dict v] is [_redact_sensitive(v)] for a dict [v]. *)
Fixpoint redact_dict (v : value) : PyDict.t value :=
  match v with
  | VDict params =>
      fold_left
        (fun redacted item =>
           let '(key, val) := item in
           if is_sensitive key then PyDict.set key REDACTED redacted
           else match val with
                | VDict _ => PyDict.set key (VDict (redact_dict val)) redacted
                | _ => PyDict.set key val redacted
                end)
        params []
  | _ => []
  end.

Definition _redact_sensitive (params : PyDict.t value) : PyDict.t value :=
  redact_dict (VDict params).

Lemma _redact_sensitive_eq params :
  _redact_sensitive params = fold_left (redact_item _redact_sensitive) params [].
Proof.
  unfold _redact_sensitive at 1. cbn [redact_dict].
  apply fold_left_ext. intros redacted [key val]. unfold redact_item.
  destruct (is_sensitive key); [reflexivity|]. destruct val; reflexivity.
Qed.

(** What one entry of the result holds for [key] with original value
    [val]. *)
Definition redacted_value (key : string) (val : value) : value :=
  if is_sensitive key then REDACTED
  else match val with
       | VDict d => VDict (_redact_sensitive d)
       | _ => val
       end.

Lemma redact_item_set self redacted key val :
  redact_item self redacted (key, val)
  = PyDict.set key
      (if is_sensitive key then REDACTED
       else match val with VDict d => VDict (self d) | _ => val end)
      redacted.
Proof.
  unfold redact_item. destruct (is_sensitive key); [reflexivity|].
  destruct val; reflexivity.
Qed.

Lemma _redact_sensitive_map params :
  PyDict.wf params ->
  _redact_sensitive params
  = map (fun item => (fst item, redacted_value (fst item) (snd item))) params.
Proof.
  intros Hwf. rewrite _redact_sensitive_eq.
  rewrite <- (app_nil_l (map _ params)).
  rewrite <- (PyDict.fold_set_map redacted_value params []) by exact Hwf.
  apply fold_left_ext. intros redacted [key val]. apply redact_item_set.
Qed.

(** A key matches the denylist without regard to case when it and a word of
    the denylist have the same lower-case form. *)
Definition matches_denylist (key : string) : Prop :=
  exists w, w ∈ DENYLIST /\ str_lower key = str_lower w.

End WithLower.

(** The set of the code holds the words of the specification. *)
Lemma sensitive_params_denylist x : x ∈ SENSITIVE_PARAMS <-> x ∈ DENYLIST.
Proof.
  unfold SENSITIVE_PARAMS, DENYLIST. split; intros Hin.
  - repeat (apply elem_of_union in Hin as [Hin|Hin]);
      apply elem_of_singleton in Hin; subst x; repeat constructor.
  - repeat (apply elem_of_cons in Hin as [->|Hin]);
      [rewrite !elem_of_union, !elem_of_singleton; intuition congruence..|].
    by apply elem_of_nil in Hin.
Qed.

(** A key of ASCII letters that is a word of the denylist up to the case of
    its letters, told without any lowering: two bytes are the same up to case
    when they are equal or one is a capital letter [A]-[Z] and the other the
    small letter 32 places after it. *)
Definition capital (c : ascii) : Prop := 65 <= nat_of_ascii c <= 90.

Definition same_letter (a b : ascii) : Prop :=
  a = b \/
  (capital a /\ nat_of_ascii b = nat_of_ascii a + 32) \/
  (capital b /\ nat_of_ascii a = nat_of_ascii b + 32).

Fixpoint eq_ignore_case (a b : string) : Prop :=
  match a, b with
  | EmptyString, EmptyString => True
  | String x a, String y b => same_letter x y /\ eq_ignore_case a b
  | _, _ => False
  end.

Definition denylisted (key : string) : Prop :=
  exists w, w ∈ DENYLIST /\ eq_ignore_case key w.

Lemma lower_ascii_same_letter x : same_letter x (PyStr.lower_ascii x).
Proof.
  unfold same_letter, PyStr.lower_ascii, capital.
  destruct (Nat.leb_spec 65 (nat_of_ascii x)); [|by left].
  destruct (Nat.leb_spec (nat_of_ascii x) 90); [|by left]. cbn [andb].
  right. left. split; [lia|]. apply nat_ascii_embedding. lia.
Qed.

Lemma same_letter_lower x y :
  same_letter x y -> PyStr.lower_ascii x = PyStr.lower_ascii y.
Proof.
  assert (Hone : forall a b,
    capital a -> nat_of_ascii b = nat_of_ascii a + 32 ->
    PyStr.lower_ascii a = PyStr.lower_ascii b).
  { intros a b Ha Hb. unfold PyStr.lower_ascii, capital in *. rewrite Hb.
    destruct (Nat.leb_spec 65 (nat_of_ascii a)); [|lia].
    destruct (Nat.leb_spec (nat_of_ascii a) 90); [|lia].
    destruct (Nat.leb_spec (nat_of_ascii a + 32) 90); [lia|].
    rewrite andb_false_r. cbn [andb]. rewrite <- Hb. apply ascii_nat_embedding. }
  intros [->|[[Hx Hy]|[Hy Hx]]]; [done | by apply Hone | symmetry; by apply Hone].
Qed.

Lemma ascii_lower_eq_ignore_case key : eq_ignore_case key (PyStr.ascii_lower key).
Proof.
  induction key as [|x key IH]; cbn; [done|]. split; [apply lower_ascii_same_letter | done].
Qed.

Lemma eq_ignore_case_lower a : forall b,
  eq_ignore_case a b -> PyStr.ascii_lower a = PyStr.ascii_lower b.
Proof.
  induction a as [|x a IH]; intros [|y b]; cbn; try done.
  intros [Hxy Hab]. by rewrite (same_letter_lower x y), (IH b).
Qed.

(** On the denylist, lowering the ASCII letters and matching a word up to
    case are the same test. *)
Lemma ascii_lower_denylisted key :
  PyStr.ascii_lower key ∈ SENSITIVE_PARAMS <-> denylisted key.
Proof.
  unfold denylisted, DENYLIST, SENSITIVE_PARAMS. split.
  - intros Hin. exists (PyStr.ascii_lower key).
    split; [|apply ascii_lower_eq_ignore_case].
    repeat (apply elem_of_union in Hin as [Hin|Hin]);
      apply elem_of_singleton in Hin; rewrite Hin; set_solver.
  - intros (w & Hw & Hmatch). apply eq_ignore_case_lower in Hmatch. rewrite Hmatch.
    repeat (apply elem_of_cons in Hw as [->|Hw]); [set_solver..|].
    by apply elem_of_nil in Hw.
Qed.

End Redaction.

(** ** Outcomes of calls that can raise *)

(** An exception, that is an instance of [Exception], which is what
    [except Exception] catches: a [ValueError] or a plain [Exception] built
    from one message, or an instance of any other subclass, given by the name
    of its class and by the text that [str] returns for it (for a [KeyError]
    built from one key that text is the [repr] of the key). *)
Inductive exn : Type :=
| ValueError (msg : string)
| Exception (msg : string)
| OtherError (class_name : string) (text : string).

(** [str(e)]. *)
Definition exn_str (e : exn) : string :=
  match e with
  | ValueError msg => msg
  | Exception msg => msg
  | OtherError _ text => text
  end.

Inductive outcome (A : Type) : Type :=
| Returned (a : A)
| Raised (e : exn).
Arguments Returned {A} a.
Arguments Raised {A} e.

(** [x in l] for a list of strings. *)
Definition py_in (x : string) (l : list string) : bool := bool_decide (x ∈ l).

(** [any(x in r for x in l)]. *)
Definition any_in (l r : list string) : bool := existsb (fun x => py_in x r) l.

Lemma any_in_spec l r : any_in l r = true <-> exists x, x ∈ l /\ x ∈ r.
Proof.
  unfold any_in, py_in. rewrite existsb_exists. split.
  - intros (x & Hin & Hx). exists x. split; [by apply list_elem_of_In|].
    by apply bool_decide_eq_true in Hx.
  - intros (x & Hin & Hx). exists x. split; [by apply list_elem_of_In|].
    by apply bool_decide_eq_true.
Qed.

(** ** shared/models.py *)

Inductive ExecutionType : Type := READ | WRITE.

Inductive PermissionLevel : Type := PUBLIC | USER | ADMIN | SYSTEM.

#[global] Instance PermissionLevel_eq_dec : EqDecision PermissionLevel.
Proof. solve_decision. Defined.

(** [PermissionLevel.value]. *)
Definition level_value (l : PermissionLevel) : string :=
  match l with
  | PUBLIC => "public" | USER => "user" | ADMIN => "admin" | SYSTEM => "system"
  end.

Record Permission : Type := mkPermission {
  p_level : PermissionLevel;
  p_roles : list string;
  p_scopes : list string
}.

(** [Permission()] with the field defaults. *)
Definition default_Permission : Permission := mkPermission USER [] [].

Record ToolDefinition : Type := mkToolDefinition {
  t_name : string;
  t_domain : string;
  t_description : string;
  t_version : string;
  t_input_schema : PyDict.t value;
  t_output_schema : PyDict.t value;
  t_execution_type : ExecutionType;
  t_permissions : Permission;
  t_tags : list string;
  t_examples : list value;
  t_deprecated : bool
}.

(** The property [ToolDefinition.qualified_name]. *)
Definition qualified_name (self : ToolDefinition) : string :=
  if negb (PyStr.contains_char "." (t_name self))
  then t_domain self +:+ "." +:+ t_name self
  else t_name self.

Record UserContext : Type := mkUserContext {
  u_user_id : string;
  u_username : string;
  u_email : option string;
  u_roles : list string;
  u_permissions : list string;
  u_metadata : PyDict.t value
}.

Record ExecutionContext : Type := mkExecutionContext {
  ctx_request_id : string;
  ctx_user : UserContext;
  ctx_timestamp : Z;
  ctx_source : string;
  ctx_correlation_id : option string;
  ctx_trace_id : option string
}.

Record ToolCall : Type := mkToolCall {
  call_tool_name : string;
  call_parameters : PyDict.t value;
  call_context : ExecutionContext
}.

Inductive ToolResultStatus : Type :=
| SUCCESS | ERROR | UNAUTHORIZED | NOT_FOUND | VALIDATION_ERROR | TIMEOUT.

Definition status_value (s : ToolResultStatus) : string :=
  match s with
  | SUCCESS => "success" | ERROR => "error" | UNAUTHORIZED => "unauthorized"
  | NOT_FOUND => "not_found" | VALIDATION_ERROR => "validation_error"
  | TIMEOUT => "timeout"
  end.

Record ToolResult : Type := mkToolResult {
  r_tool_name : string;
  r_status : ToolResultStatus;
  r_data : option value;
  r_error : option string;
  r_error_code : option string;
  r_execution_time_ms : float;
  r_metadata : PyDict.t value
}.

(** [ToolResult(tool_name=..., status=..., ...)]: the fields that a call site
    leaves out take their defaults ([execution_time_ms] is [0]). *)
Definition ToolResult_ (tool_name : string) (status : ToolResultStatus)
    (data : option value) (error error_code : option string) : ToolResult :=
  mkToolResult tool_name status data error error_code 0%float [].

(** [result.execution_time_ms = t]. *)
Definition set_execution_time_ms (t : float) (r : ToolResult) : ToolResult :=
  mkToolResult (r_tool_name r) (r_status r) (r_data r) (r_error r)
    (r_error_code r) t (r_metadata r).

Record AuditEntry : Type := mkAuditEntry {
  a_id : string;
  a_timestamp : Z;
  a_user_id : string;
  a_username : string;
  a_tool_name : string;
  a_domain : string;
  a_execution_type : ExecutionType;
  a_parameters : PyDict.t value;
  a_status : ToolResultStatus;
  a_error : option string;
  a_execution_time_ms : float;
  a_request_id : string;
  a_correlation_id : option string
}.

(** ** shared/schema.py *)

Module Schema.

(** One error of [Draft7Validator(schema).iter_errors(data)]: the path to the
    offending element, made of keys and list indices, and the message. *)
Inductive path_item : Type :=
| Key (k : string)
| Index (i : Z).

(** [str(p)]. *)
Definition str_path_item (p : path_item) : string :=
  match p with
  | Key k => k
  | Index i => NilZero.string_of_int (Z.to_int i)
  end.

Record ValidationError : Type := mkValidationError {
  e_path : list path_item;
  e_message : string
}.

Section Validate.
(** The jsonschema library: the errors of [data] against [schema], or the
    exception it raises on a schema it cannot read. *)
Variable iter_errors : PyDict.t value -> value -> outcome (list ValidationError).

Definition error_message (e : ValidationError) : string :=
  if truthy_list (e_path e)
  then PyStr.join "." (map str_path_item (e_path e)) +:+ ": " +:+ e_message e
  else e_message e.

Definition validate_schema (data : value) (schema : PyDict.t value)
  : outcome (bool * list string) :=
  if negb (truthy_list schema) then Returned (true, [])
  else
    match iter_errors schema data with
    | Raised e => Raised e
    | Returned errors =>
        if negb (truthy_list errors) then Returned (true, [])
        else Returned (false, map error_message errors)
    end.

End Validate.

End Schema.

(** ** mcp_server/registry.py *)

Module Registry.

Record ToolRegistry : Type := mkToolRegistry {
  _tools : PyDict.t ToolDefinition;
  _domains : gset string
}.

(** [ToolRegistry()]. *)
Definition empty : ToolRegistry := mkToolRegistry [] ∅.

Definition register (self : ToolRegistry) (tool : ToolDefinition)
  : outcome unit * ToolRegistry :=
  let qualified_name := qualified_name tool in
  if PyDict.contains qualified_name (_tools self)
  then (Raised (ValueError ("Tool '" +:+ qualified_name +:+ "' is already registered")),
        self)
  else (Returned tt,
        mkToolRegistry (PyDict.set qualified_name tool (_tools self))
                       ({[ t_domain tool ]} ∪ _domains self)).

Fixpoint register_many (self : ToolRegistry) (tools : list ToolDefinition)
  : outcome unit * ToolRegistry :=
  match tools with
  | [] => (Returned tt, self)
  | tool :: rest =>
      match register self tool with
      | (Returned _, self') => register_many self' rest
      | (Raised e, self') => (Raised e, self')
      end
  end.

Definition unregister (self : ToolRegistry) (tool_name : string)
  : bool * ToolRegistry :=
  if PyDict.contains tool_name (_tools self)
  then (true, mkToolRegistry (PyDict.del tool_name (_tools self)) (_domains self))
  else (false, self).

Definition get (self : ToolRegistry) (tool_name : string) : option ToolDefinition :=
  PyDict.get tool_name (_tools self).

Definition list_tools (self : ToolRegistry) (domain : option string)
    (include_deprecated : bool) : list ToolDefinition :=
  let tools := PyDict.values (_tools self) in
  let tools :=
    match domain with
    | Some d => if truthy_str d
                then List.filter (fun t => String.eqb (t_domain t) d) tools
                else tools
    | None => tools
    end in
  if negb include_deprecated
  then List.filter (fun t => negb (t_deprecated t)) tools
  else tools.

(** The filter of [get_tools_for_llm] on one tool, for [user_roles] not
    [None]: the three [if]s of the loop body. *)
Definition llm_visible (user_roles : list string) (tool : ToolDefinition) : bool :=
  if String.eqb (level_value (p_level (t_permissions tool))) "public" then true
  else if any_in user_roles (p_roles (t_permissions tool)) then true
  else if String.eqb (level_value (p_level (t_permissions tool))) "user"
          && truthy_list user_roles then true
  else false.

(** One descriptor of the function-calling format. *)
Definition llm_format (tool : ToolDefinition) : value :=
  VDict [("type", VStr "function");
         ("function",
          VDict [("name", VStr (qualified_name tool));
                 ("description", VStr (t_description tool));
                 ("parameters",
                  VDict (if truthy_list (t_input_schema tool)
                         then t_input_schema tool
                         else [("type", VStr "object");
                               ("properties", VDict []);
                               ("required", VList [])]))])].

(** The tools that [get_tools_for_llm] formats. *)
Definition tools_for_llm (self : ToolRegistry) (domains : option (list string))
    (user_roles : option (list string)) : list ToolDefinition :=
  let tools := list_tools self None false in
  let tools :=
    match domains with
    | Some ds => if truthy_list ds
                 then List.filter (fun t => py_in (t_domain t) ds) tools
                 else tools
    | None => tools
    end in
  match user_roles with
  | Some roles => List.filter (llm_visible roles) tools
  | None => tools
  end.

Definition get_tools_for_llm (self : ToolRegistry) (domains : option (list string))
    (user_roles : option (list string)) : list value :=
  map llm_format (tools_for_llm self domains user_roles).

Section Validation.
(** The jsonschema library behind [shared.schema.validate_schema]. *)
Variable iter_errors : PyDict.t value -> value -> outcome (list Schema.ValidationError).

(** [validate_input] raises what [validate_schema] raises. *)
Definition validate_input (self : ToolRegistry) (tool_name : string)
    (parameters : PyDict.t value) : outcome (bool * list string) :=
  match get self tool_name with
  | None => Returned (false, ["Tool '" +:+ tool_name +:+ "' not found"])
  | Some tool =>
      if negb (truthy_list (t_input_schema tool)) then Returned (true, [])
      else Schema.validate_schema iter_errors (VDict parameters) (t_input_schema tool)
  end.

End Validation.

(** The order of [sorted] on [str]. *)
Definition str_le (a b : string) : Prop := String.leb a b = true.

#[global] Instance str_le_dec : RelDecision str_le.
Proof. intros a b. unfold str_le. apply _. Defined.

(** [sorted(self._domains)]. *)
Definition list_domains (self : ToolRegistry) : list string :=
  merge_sort str_le (elements (_domains self)).

(** [counts[tool.domain] = counts.get(tool.domain, 0) + 1] for every tool. *)
Definition get_tool_count (self : ToolRegistry) : PyDict.t Z :=
  fold_left
    (fun counts tool =>
       PyDict.set (t_domain tool)
         (default 0%Z (PyDict.get (t_domain tool) counts) + 1)%Z counts)
    (PyDict.values (_tools self)) [].

Definition clear (self : ToolRegistry) : ToolRegistry := mkToolRegistry [] ∅.

End Registry.

(** ** mcp_server/auth.py *)

Module Auth.

Definition authorize_request (tool : ToolDefinition) (user : UserContext)
    (context : ExecutionContext) : bool * option string :=
  let permission := t_permissions tool in
  let granted := (true, @None string) in
  let check_scopes :=
    if truthy_list (p_scopes permission) then
      if negb (any_in (p_scopes permission) (u_permissions user))
      then (false, Some ("Required scopes: " +:+ PyStr.join ", " (p_scopes permission)))
      else granted
    else granted in
  let check_roles :=
    if truthy_list (p_roles permission) then
      if negb (any_in (p_roles permission) (u_roles user))
      then (false, Some ("Required roles: " +:+ PyStr.join ", " (p_roles permission)))
      else check_scopes
    else check_scopes in
  let check_admin :=
    if decide (p_level permission = ADMIN) then
      if negb (py_in "admin" (u_roles user))
      then (false, Some "Admin access required")
      else check_roles
    else check_roles in
  let check_system :=
    if decide (p_level permission = SYSTEM) then
      if negb (py_in "system" (u_roles user))
      then (false, Some "System-level access required")
      else check_admin
    else check_admin in
  if decide (p_level permission = PUBLIC) then granted else check_system.

(** [check_rate_limit] is a placeholder that always allows. *)
Definition check_rate_limit (user : UserContext) (tool : ToolDefinition)
    (rate_limit_rpm : Z) : bool * option string := (true, None).

End Auth.

(** ** mcp_server/audit.py: the buffered logger *)

Module Audit.

(** What the file system answers to one attempt to append the buffer to the
    log file: success, or an error raised after [written] entries had reached
    the file ([0] when the file cannot be opened). *)
Inductive io_outcome : Type :=
| IoOk
| IoError (written : nat) (msg : string).

(** The answers of the environment during one call of [log]. *)
Record LogEnv : Type := mkLogEnv {
  env_uuid4 : string;
  env_utcnow : Z;
  env_io : io_outcome
}.

(** [log_file] is the content of the file at [log_path], one line per
    element. *)
Record AuditLogger : Type := mkAuditLogger {
  log_path : string;
  enabled : bool;
  buffer_size : Z;
  _buffer : list AuditEntry;
  log_file : list string
}.

Definition set_buffer (buffer : list AuditEntry) (self : AuditLogger) : AuditLogger :=
  mkAuditLogger (log_path self) (enabled self) (buffer_size self) buffer (log_file self).

Definition append_file (lines : list string) (self : AuditLogger) : AuditLogger :=
  mkAuditLogger (log_path self) (enabled self) (buffer_size self) (_buffer self)
    (log_file self ++ lines).

Definition create_entry (str_lower : string -> string) (env : LogEnv)
    (tool : ToolDefinition) (call : ToolCall) (result : ToolResult) : AuditEntry :=
  mkAuditEntry
    (env_uuid4 env)
    (env_utcnow env)
    (u_user_id (ctx_user (call_context call)))
    (u_username (ctx_user (call_context call)))
    (qualified_name tool)
    (t_domain tool)
    (t_execution_type tool)
    (Redaction._redact_sensitive str_lower (call_parameters call))
    (r_status result)
    (r_error result)
    (r_execution_time_ms result)
    (ctx_request_id (call_context call))
    (ctx_correlation_id (call_context call)).

(** The line terminator written after each entry. *)
Definition newline : string := String (ascii_of_nat 10) EmptyString.

Section Flush.
(** [entry.model_dump_json()] is pydantic's serialiser. *)
Variable model_dump_json : AuditEntry -> string.
(** [key.lower()], used by the redaction of the parameters. *)
Variable str_lower : string -> string.

Definition _flush (io : io_outcome) (self : AuditLogger) : AuditLogger :=
  match _buffer self with
  | [] => self
  | _ =>
      let entries_to_write := _buffer self in
      let self := set_buffer [] self in
      match io with
      | IoOk =>
          append_file (map (fun entry => model_dump_json entry +:+ newline) entries_to_write) self
      | IoError written _ =>
          let self :=
            append_file (map (fun entry => model_dump_json entry +:+ newline)
               (take written entries_to_write)) self in
          set_buffer (_buffer self ++ entries_to_write) self
      end
  end.

Definition flush (io : io_outcome) (self : AuditLogger) : AuditLogger :=
  _flush io self.

Definition log (env : LogEnv) (self : AuditLogger) (tool : ToolDefinition)
    (call : ToolCall) (result : ToolResult) : AuditLogger :=
  if negb (enabled self) then self
  else
    let entry := create_entry str_lower env tool call result in
    let self := set_buffer (_buffer self ++ [entry]) self in
    if (Z.of_nat (length (_buffer self)) >=? buffer_size self)%Z
    then _flush (env_io env) self
    else self.

End Flush.

(** What building an [AuditEntry] from [json.loads(line.strip())] does with
    one line of the file: an entry, one of the errors the loop skips
    ([JSONDecodeError], [ValueError]), or another exception, which ends the
    reading. *)
Inductive line_outcome : Type :=
| Parsed (entry : AuditEntry)
| Skipped
| Fails (e : exn).

(** [entry.status != status] on the string values of the enumeration. *)
Definition status_eqb (a b : ToolResultStatus) : bool :=
  String.eqb (status_value a) (status_value b).

(** [x and entry.field != x] for an optional string [x]. *)
Definition differs (x : option string) (field : string) : bool :=
  match x with
  | Some x => truthy_str x && negb (String.eqb field x)
  | None => false
  end.

Section Query.
Variable parse_line : string -> line_outcome.
Variable user_id tool_name domain : option string.
Variable status : option ToolResultStatus.
Variable start_time end_time : option Z.
Variable limit : Z.

(** The filters of the loop body: [true] when one of them says [continue]. *)
Definition filtered_out (entry : AuditEntry) : bool :=
  differs user_id (a_user_id entry)
  || differs tool_name (a_tool_name entry)
  || differs domain (a_domain entry)
  || match status with
     | Some status =>
         truthy_str (status_value status) && negb (status_eqb (a_status entry) status)
     | None => false
     end
  || match start_time with
     | Some start_time => (a_timestamp entry <? start_time)%Z
     | None => false
     end
  || match end_time with
     | Some end_time => (a_timestamp entry >? end_time)%Z
     | None => false
     end.

(** [async for line in f], from the lines not read yet and the results so
    far. *)
Fixpoint query_lines (lines : list string) (results : list AuditEntry)
  : list AuditEntry :=
  match lines with
  | [] => results
  | line :: rest =>
      if (Z.of_nat (length results) >=? limit)%Z then results
      else
        match parse_line line with
        | Parsed entry =>
            if filtered_out entry then query_lines rest results
            else query_lines rest (results ++ [entry])
        | Skipped => query_lines rest results
        | Fails _ => results
        end
  end.

(** [io] is what the file system answers to the reading: [IoError n] is an
    error after [n] lines were read. A file that does not exist has no
    lines. *)
Definition query (io : io_outcome) (self : AuditLogger) : list AuditEntry :=
  match log_file self with
  | [] => []
  | lines =>
      match io with
      | IoOk => query_lines lines []
      | IoError n _ => query_lines (take n lines) []
      end
  end.

End Query.

End Audit.

(** ** mcp_server/router.py *)

Module Router.
Import Audit.

(** What a domain adapter can do when called: return a dict, return a
    [ToolResult], return something else, or raise. *)
Inductive AdapterReturn : Type :=
| RetDict (d : PyDict.t value)
| RetToolResult (r : ToolResult)
| RetOther (v : value)
| AdapterRaises (e : exn).

Definition AdapterExecutor : Type :=
  string -> PyDict.t value -> ExecutionContext -> AdapterReturn.

Record ToolRouter : Type := mkToolRouter {
  registry : Registry.ToolRegistry;
  audit_logger : AuditLogger;
  _adapters : gmap string AdapterExecutor
}.

Definition set_audit_logger (al : AuditLogger) (self : ToolRouter) : ToolRouter :=
  mkToolRouter (registry self) al (_adapters self).

Definition register_adapter (self : ToolRouter) (domain : string)
    (executor : AdapterExecutor) : ToolRouter :=
  mkToolRouter (registry self) (audit_logger self) (<[domain := executor]> (_adapters self)).

Definition unregister_adapter (self : ToolRouter) (domain : string) : bool * ToolRouter :=
  match _adapters self !! domain with
  | Some _ => (true, mkToolRouter (registry self) (audit_logger self)
                       (delete domain (_adapters self)))
  | None => (false, self)
  end.

(** [data=result] for a result that is neither a dict nor a [ToolResult]. *)
Definition data_of (v : value) : option value :=
  match v with VNone => None | _ => Some v end.

Definition _execute_with_adapter (adapter : AdapterExecutor) (tool : ToolDefinition)
    (parameters : PyDict.t value) (context : ExecutionContext) : outcome ToolResult :=
  let action :=
    if PyStr.contains_char "." (t_name tool)
    then PyStr.last_segment "." (t_name tool)
    else t_name tool in
  match adapter action parameters context with
  | RetDict d => Returned (ToolResult_ (qualified_name tool) SUCCESS (Some (VDict d)) None None)
  | RetToolResult r => Returned r
  | RetOther v => Returned (ToolResult_ (qualified_name tool) SUCCESS (data_of v) None None)
  | AdapterRaises e => Raised e
  end.

(** The answers of the environment during one call of [execute]:
    [time_time k] is the [k]-th reading of [time.time()]. *)
Record RouterEnv : Type := mkRouterEnv {
  time_time : nat -> float;
  log_env : LogEnv
}.

(** [(t1 - t0) * 1000]. *)
Definition elapsed_ms (t0 t1 : float) : float := ((t1 - t0) * 1000)%float.

Section Execute.
(** The jsonschema library, pydantic's serialiser and [str.lower]. *)
Variable iter_errors : PyDict.t value -> value -> outcome (list Schema.ValidationError).
Variable model_dump_json : AuditEntry -> string.
Variable str_lower : string -> string.

(** [execute] returns a result or, when [validate_input] raises, raises in
    turn: that call is not inside the [try], and nothing has been audited at
    that point. *)
Definition execute (env : RouterEnv) (self : ToolRouter) (call : ToolCall)
  : outcome ToolResult * ToolRouter :=
  let start_time := time_time env 0 in
  let tool_name := call_tool_name call in
  let audit tool result :=
    set_audit_logger
      (log model_dump_json str_lower (log_env env) (audit_logger self) tool call result)
      self in
  match Registry.get (registry self) tool_name with
  | None =>
      let result :=
        ToolResult_ tool_name NOT_FOUND None
          (Some ("Tool '" +:+ tool_name +:+ "' not found")) (Some "TOOL_NOT_FOUND") in
      (Returned result, self)
  | Some tool =>
      match Registry.validate_input iter_errors (registry self) tool_name
              (call_parameters call) with
      | Raised e => (Raised e, self)
      | Returned (is_valid, errors) =>
      if negb is_valid then
        let result :=
          ToolResult_ tool_name VALIDATION_ERROR None
            (Some ("Validation failed: " +:+ PyStr.join "; " errors))
            (Some "VALIDATION_ERROR") in
        (Returned result, audit tool result)
      else
        let '(authorized, auth_error) :=
          Auth.authorize_request tool (ctx_user (call_context call)) (call_context call) in
        if negb authorized then
          let result :=
            ToolResult_ tool_name UNAUTHORIZED None
              (Some (match auth_error with
                     | Some e => if truthy_str e then e else "Unauthorized"
                     | None => "Unauthorized"
                     end))
              (Some "UNAUTHORIZED") in
          (Returned result, audit tool result)
        else
          match _adapters self !! t_domain tool with
          | None =>
              let result :=
                ToolResult_ tool_name ERROR None
                  (Some ("No adapter registered for domain '" +:+ t_domain tool +:+ "'"))
                  (Some "NO_ADAPTER") in
              (Returned result, audit tool result)
          | Some adapter =>
              let result :=
                match _execute_with_adapter adapter tool (call_parameters call)
                        (call_context call) with
                | Returned r => r
                | Raised e =>
                    ToolResult_ tool_name ERROR None (Some (exn_str e))
                      (Some "EXECUTION_ERROR")
                end in
              let result :=
                set_execution_time_ms (elapsed_ms start_time (time_time env 1)) result in
              (Returned result, audit tool result)
          end
      end
  end.

End Execute.

End Router.

(** ** orchestrator/conversation.py and orchestrator/gateway.py *)

Module Orchestrator.

(** A tool-call request as the providers of [orchestrator/llm.py] build it:
    [{"id": .., "type": "function", "function": {"name": .., "arguments": ..}}].
    [arguments] is JSON text ([VStr]) or an already parsed value. *)
Record LLMToolCall : Type := mkLLMToolCall {
  tc_id : string;
  tc_type : string;
  tc_name : string;
  tc_arguments : value
}.

Record ConversationMessage : Type := mkConversationMessage {
  m_role : string;
  m_content : string;
  m_tool_calls : option (list LLMToolCall);
  m_tool_call_id : option string;
  m_timestamp : Z
}.

Record Conversation : Type := mkConversation {
  c_id : string;
  c_user : UserContext;
  c_messages : list ConversationMessage;
  c_created_at : Z;
  c_updated_at : Z;
  c_metadata : PyDict.t value
}.

Record LLMResponse : Type := mkLLMResponse {
  content : option string;
  tool_calls : option (list LLMToolCall);
  finish_reason : string;
  usage : PyDict.t value
}.

(** [l[start:]] with Python's treatment of negative and out-of-range
    bounds. *)
Definition py_slice_from {A} (start : Z) (l : list A) : list A :=
  let n := Z.of_nat (length l) in
  let i := if (start <? 0)%Z then Z.max 0 (n + start) else Z.min start n in
  drop (Z.to_nat i) l.

Definition is_system (m : ConversationMessage) : bool := String.eqb (m_role m) "system".

(** The block of [add_message] that runs under the lock: append, stamp,
    prune. *)
Definition append_and_prune (max_length : Z) (conversation : Conversation)
    (message : ConversationMessage) (now : Z) : Conversation :=
  let messages := c_messages conversation ++ [message] in
  let messages :=
    if (Z.of_nat (length messages) >? max_length)%Z then
      let system_msgs := List.filter is_system messages in
      let other_msgs := List.filter (fun m => negb (is_system m)) messages in
      let keep_count := (max_length - Z.of_nat (length system_msgs))%Z in
      system_msgs ++ py_slice_from (- keep_count) other_msgs
    else messages in
  mkConversation (c_id conversation) (c_user conversation) messages
    (c_created_at conversation) now (c_metadata conversation).

(** The state that one request of the orchestrator reads and writes: the
    conversations of the manager and, for the external collaborators, how
    often each was called so far (the clock, the uuid generator and the
    model) and with what (the execution client). *)
Record World : Type := mkWorld {
  _conversations : gmap string Conversation;
  clock_reads : nat;
  uuid_reads : nat;
  llm_calls : nat;
  execute_calls : list (string * value)
}.

Definition set_conversations (cs : gmap string Conversation) (w : World) : World :=
  mkWorld cs (clock_reads w) (uuid_reads w) (llm_calls w) (execute_calls w).

(** Stateful computations that may raise. *)
Definition M (A : Type) : Type := World -> outcome A * World.

Definition ret {A} (a : A) : M A := fun w => (Returned a, w).

Definition bind {A B} (m : M A) (k : A -> M B) : M B :=
  fun w => match m w with
           | (Returned a, w') => k a w'
           | (Raised e, w') => (Raised e, w')
           end.

Notation "x <- m ;; k" := (bind m (fun x => k))
  (at level 100, m at next level, right associativity).
Notation "m ;;; k" := (bind m (fun _ => k))
  (at level 100, right associativity).

(** [for x in xs: body(x)]. *)
Fixpoint for_each {A} (xs : list A) (body : A -> M unit) : M unit :=
  match xs with
  | [] => ret tt
  | x :: rest => body x ;;; for_each rest body
  end.

Section WithEnvironment.
(** [utcnow k] is the [k]-th reading of [datetime.utcnow()], [uuid4 k] the
    [k]-th uuid. *)
Variable utcnow : nat -> Z.
Variable uuid4 : nat -> string.
(** The [k]-th completion of the provider, for the messages and the tool
    menu it is given. *)
Variable llm_complete :
  nat -> list ConversationMessage -> option (list value) -> outcome LLMResponse.
(** The [k]-th answer of the execution client to
    [execute(tool_name, parameters, request_id)]. *)
Variable mcp_client_execute : nat -> string -> value -> string -> outcome ToolResult.
Variable json_loads : string -> option value.
Variable json_dumps : value -> string.

(** The settings of the manager and of the gateway. *)
Variable max_length : Z.
Variable ttl : Z.
Variable max_tool_iterations : Z.

Definition datetime_utcnow : M Z :=
  fun w => (Returned (utcnow (clock_reads w)),
            mkWorld (_conversations w) (S (clock_reads w)) (uuid_reads w)
                    (llm_calls w) (execute_calls w)).

Definition uuid_uuid4 : M string :=
  fun w => (Returned (uuid4 (uuid_reads w)),
            mkWorld (_conversations w) (clock_reads w) (S (uuid_reads w))
                    (llm_calls w) (execute_calls w)).

Definition llm_call (messages : list ConversationMessage) (tools : option (list value))
  : M LLMResponse :=
  fun w => (llm_complete (llm_calls w) messages tools,
            mkWorld (_conversations w) (clock_reads w) (uuid_reads w)
                    (S (llm_calls w)) (execute_calls w)).

Definition client_call (tool_name : string) (parameters : value) (request_id : string)
  : M ToolResult :=
  fun w => (mcp_client_execute (length (execute_calls w)) tool_name parameters request_id,
            mkWorld (_conversations w) (clock_reads w) (uuid_reads w) (llm_calls w)
                    (execute_calls w ++ [(tool_name, parameters)])).

(** *** ConversationManager *)

Definition delete (conversation_id : string) : M bool :=
  fun w => match _conversations w !! conversation_id with
           | Some _ => (Returned true,
                        set_conversations (base.delete conversation_id (_conversations w)) w)
           | None => (Returned false, w)
           end.

Definition get (conversation_id : string) : M (option Conversation) :=
  fun w => match _conversations w !! conversation_id with
           | None => (Returned None, w)
           | Some conversation =>
               (now <- datetime_utcnow ;;
                if (now - c_updated_at conversation >? ttl)%Z
                then delete conversation_id ;;; ret None
                else ret (Some conversation)) w
           end.

Definition create (user : UserContext) (system_prompt : option string) : M Conversation :=
  conversation_id <- uuid_uuid4 ;;
  messages <-
    match system_prompt with
    | Some prompt =>
        if truthy_str prompt
        then (ts <- datetime_utcnow ;;
              ret [mkConversationMessage "system" prompt None None ts])
        else ret []
    | None => ret []
    end ;;
  created_at <- datetime_utcnow ;;
  updated_at <- datetime_utcnow ;;
  let conversation :=
    mkConversation conversation_id user messages created_at updated_at [] in
  (fun w => (Returned conversation,
             set_conversations (<[conversation_id := conversation]> (_conversations w)) w)).

Definition get_or_create (conversation_id : option string) (user : UserContext)
    (system_prompt : option string) : M Conversation :=
  found <-
    match conversation_id with
    | Some cid => if truthy_str cid then get cid else ret None
    | None => ret None
    end ;;
  match found with
  | Some conversation => ret conversation
  | None => create user system_prompt
  end.

Definition add_message (conversation_id : string) (role content : string)
    (tool_calls : option (list LLMToolCall)) (tool_call_id : option string)
  : M (option ConversationMessage) :=
  conversation <- get conversation_id ;;
  match conversation with
  | None => ret None
  | Some conversation =>
      ts <- datetime_utcnow ;;
      let message := mkConversationMessage role content tool_calls tool_call_id ts in
      now <- datetime_utcnow ;;
      (fun w => (Returned (Some message),
                 set_conversations
                   (<[conversation_id := append_and_prune max_length conversation message now]>
                      (_conversations w)) w))
  end.

Definition add_user_message (conversation_id content : string) :=
  add_message conversation_id "user" content None None.

Definition add_assistant_message (conversation_id content : string)
    (tool_calls : option (list LLMToolCall)) :=
  add_message conversation_id "assistant" content tool_calls None.

Definition add_tool_result (conversation_id tool_call_id content : string) :=
  add_message conversation_id "tool" content None (Some tool_call_id).

Definition get_messages (conversation_id : string) (include_system : bool)
  : M (list ConversationMessage) :=
  conversation <- get conversation_id ;;
  match conversation with
  | None => ret []
  | Some conversation =>
      let messages := c_messages conversation in
      ret (if negb include_system
           then List.filter (fun m => negb (is_system m)) messages
           else messages)
  end.

(** *** AIGateway *)

Definition NO_RESPONSE : string := "I apologize, but I couldn't generate a response.".

Definition MAX_ITERATIONS_REACHED : string :=
  "I apologize, but I wasn't able to complete the task within the allowed number of steps.".

(** [s or default] for an optional string. *)
Definition str_or (s : option string) (default : string) : string :=
  match s with
  | Some s => if truthy_str s then s else default
  | None => default
  end.

Definition _format_tool_result (result : ToolResult) : string :=
  match r_status result with
  | SUCCESS =>
      match r_data result with
      | None => "Tool executed successfully."
      | Some (VStr data) => data
      | Some data => json_dumps data
      end
  | _ =>
      let error_msg := str_or (r_error result) "Unknown error" in
      "Tool error (" +:+ status_value (r_status result) +:+ "): " +:+ error_msg
  end.

Definition _execute_tool_call (tool_call : LLMToolCall) (request_id : string)
  : M ToolResult :=
  let tool_name := tc_name tool_call in
  let parsed :=
    match tc_arguments tool_call with
    | VStr args_str => json_loads args_str
    | args => Some args
    end in
  match parsed with
  | None =>
      ret (ToolResult_ tool_name VALIDATION_ERROR None
             (Some "Invalid tool call arguments") None)
  | Some parameters => client_call tool_name parameters request_id
  end.

(** The [while iterations < self.max_tool_iterations] loop. Nothing but the
    increment at the head of the body changes [iterations], so the condition
    holds for [remaining] more rounds, [remaining] starting at
    [max_tool_iterations] (none when that is negative). *)
Fixpoint tool_loop (remaining : nat) (iterations : Z) (conversation_id : string)
    (tools : list value) (request_id : string) : M string :=
  match remaining with
  | O => ret MAX_ITERATIONS_REACHED
  | S remaining =>
      let iterations := (iterations + 1)%Z in
      messages <- get_messages conversation_id true ;;
      llm_response <-
        llm_call messages (if truthy_list tools then Some tools else None) ;;
      match tool_calls llm_response with
      | Some (first :: others) =>
          let requested := first :: others in
          add_assistant_message conversation_id (str_or (content llm_response) "")
            (Some requested) ;;;
          for_each requested
            (fun tool_call =>
               result <- _execute_tool_call tool_call request_id ;;
               add_tool_result conversation_id (tc_id tool_call)
                 (_format_tool_result result) ;;;
               ret tt) ;;;
          tool_loop remaining iterations conversation_id tools request_id
      | _ => ret (str_or (content llm_response) NO_RESPONSE)
      end
  end.

Definition _process_with_tools (conversation_id : string) (tools : list value)
    (request_id : string) : M string :=
  tool_loop (Z.to_nat max_tool_iterations) 0 conversation_id tools request_id.

(** *** ConversationManager, continued *)

(** Whether [now - conv.updated_at > self.ttl]. *)
Definition expired_at (now : Z) (conv : Conversation) : bool :=
  (now - c_updated_at conv >? ttl)%Z.

(** The ids that the first loop of [cleanup_expired] collects, then the
    deletions of the second. *)
Definition cleanup_expired : M nat :=
  now <- datetime_utcnow ;;
  (fun w =>
     let expired :=
       map fst (List.filter (fun item => expired_at now (snd item))
                  (map_to_list (_conversations w))) in
     (Returned (length expired),
      set_conversations
        (fold_left (fun cs conv_id => base.delete conv_id cs) expired (_conversations w))
        w)).

(** *** AIGateway, continued *)

Definition end_conversation (conversation_id : string) : M bool :=
  delete conversation_id.

(** [tool.get("function", {}).get("name", "")]; [None] when a [.get] is
    called on something that is not a dict. *)
Definition function_name (tool : value) : option value :=
  match tool with
  | VDict d =>
      match default (VDict []) (PyDict.get "function" d) with
      | VDict f => Some (default (VStr "") (PyDict.get "name" f))
      | _ => None
      end
  | _ => None
  end.

(** [name.split(".")[0] if "." in name else "default"]; [None] when the
    membership test or the [split] raises. *)
Definition name_domain (name : value) : option string :=
  match name with
  | VStr s =>
      Some (if PyStr.contains_char "." s then PyStr.first_segment "." s else "default")
  | VList items =>
      if existsb (fun item => match item with
                              | VStr s => String.eqb s "."
                              | _ => false
                              end) items
      then None else Some "default"
  | VDict entries => if PyDict.contains "." entries then None else Some "default"
  | _ => None
  end.

(** The loop over [all_tools] of [_get_tools_for_user]. *)
Fixpoint filter_domains (allowed_domains : list string) (tools filtered : list value)
  : option (list value) :=
  match tools with
  | [] => Some filtered
  | tool :: rest =>
      match function_name tool with
      | None => None
      | Some name =>
          match name_domain name with
          | None => None
          | Some domain =>
              filter_domains allowed_domains rest
                (if py_in domain allowed_domains then filtered ++ [tool] else filtered)
          end
      end
  end.

(** [discovered] is what [self.tool_discovery.get_all_tools()] answers. *)
Definition _get_tools_for_user (discovered : outcome (list value)) (user : UserContext)
    (allowed_domains : option (list string)) : list value :=
  match discovered with
  | Raised _ => []
  | Returned all_tools =>
      match allowed_domains with
      | Some (d :: ds) =>
          match filter_domains (d :: ds) all_tools [] with
          | Some filtered => filtered
          | None => []
          end
      | _ => all_tools
      end
  end.

(** The answer of [process_message]: a dict with these three keys. *)
Record ChatResult : Type := mkChatResult {
  res_conversation_id : string;
  res_response : string;
  res_request_id : string
}.

(** [self.system_prompt] is a setting of the gateway. *)
Variable system_prompt : string.

Definition process_message (discovered : outcome (list value)) (user_message : string)
    (user : UserContext) (conversation_id : option string)
    (allowed_domains : option (list string)) : M ChatResult :=
  request_id <- uuid_uuid4 ;;
  conversation <- get_or_create conversation_id user (Some system_prompt) ;;
  add_user_message (c_id conversation) user_message ;;;
  let tools := _get_tools_for_user discovered user allowed_domains in
  final_response <- _process_with_tools (c_id conversation) tools request_id ;;
  add_assistant_message (c_id conversation) final_response None ;;;
  ret (mkChatResult (c_id conversation) final_response request_id).

End WithEnvironment.

End Orchestrator.

(** * Properties *)

(** A lowering that knows, besides the letters [A]-[Z], the Kelvin sign
    U+212A (the bytes 226, 132, 170), which [str.lower] maps to [k]. *)
Fixpoint lower_with_kelvin (s : string) : string :=
  match s with
  | EmptyString => EmptyString
  | String c rest =>
      match rest with
      | String c1 (String c2 rest') =>
          if ((c =? "226") && (c1 =? "132") && (c2 =? "170"))%char
          then String "k" (lower_with_kelvin rest')
          else String (PyStr.lower_ascii c) (lower_with_kelvin rest)
      | _ => String (PyStr.lower_ascii c) (lower_with_kelvin rest)
      end
  end.

Lemma lower_with_kelvin_ascii s :
  PyStr.is_ascii s = true -> lower_with_kelvin s = PyStr.ascii_lower s.
Proof.
  induction s as [|c rest IH]; [reflexivity|].
  cbn [PyStr.is_ascii]. intros [Hc Hrest]%andb_prop. apply Nat.ltb_lt in Hc.
  assert (Hne : (c =? "226")%char = false).
  { destruct (Ascii.eqb_spec c "226") as [->|]; [|reflexivity].
    vm_compute in Hc. lia. }
  cbn [lower_with_kelvin PyStr.ascii_lower]. rewrite Hne. cbn [andb].
  rewrite (IH Hrest). by destruct rest as [|c1 [|c2 rest']].
Qed.

Definition login_params : PyDict.t value :=
  [("username", VStr "u"); ("password", VStr "p"); ("api_key", VStr "k")].

(** [TO], the Kelvin sign, [EN]. *)
Definition kelvin_token : string :=
  String "T" (String "O" (String "226" (String "132" (String "170" "EN")))).

Definition nested_list_params : PyDict.t value :=
  [("users", VList [VDict [("name", VStr "ann"); ("password", VStr "p")]])].

Definition token_list_params : PyDict.t value :=
  [("token", VList [VDict [("name", VStr "ann"); ("password", VStr "p")]])].

Section RedactionProperties.
Import Redaction.

(** [key.lower()]. On a text of ASCII characters it replaces the letters
    [A]-[Z] by [a]-[z] and nothing else. *)
Variable str_lower : string -> string.
Hypothesis str_lower_ascii :
  forall s, PyStr.is_ascii s = true -> str_lower s = PyStr.ascii_lower s.

Lemma str_lower_denylist w : w ∈ DENYLIST -> str_lower w = w.
Proof.
  unfold DENYLIST. intros Hw.
  repeat (apply elem_of_cons in Hw as [->|Hw]);
    [by rewrite str_lower_ascii..|by apply elem_of_nil in Hw].
Qed.

Lemma is_sensitive_matches key :
  is_sensitive str_lower key = true <-> matches_denylist str_lower key.
Proof.
  unfold is_sensitive, matches_denylist. rewrite bool_decide_eq_true. split.
  - intros Hw%sensitive_params_denylist. exists (str_lower key).
    split; [exact Hw|]. by rewrite (str_lower_denylist _ Hw).
  - intros (w & Hw & ->). rewrite (str_lower_denylist _ Hw).
    by apply sensitive_params_denylist.
Qed.

Lemma not_sensitive_matches key :
  is_sensitive str_lower key = false <-> ~ matches_denylist str_lower key.
Proof.
  rewrite <- is_sensitive_matches. by destruct (is_sensitive str_lower key).
Qed.

Lemma matches_denylist_ascii key :
  PyStr.is_ascii key = true ->
  matches_denylist str_lower key <-> denylisted key.
Proof.
  intros Hascii. rewrite <- is_sensitive_matches, <- ascii_lower_denylisted.
  unfold is_sensitive. by rewrite bool_decide_eq_true, str_lower_ascii.
Qed.

(** C6. For every parameter map, redaction keeps the keys; the value of a
    key that matches the denylist without regard to case (its lower-case form
    is the lower-case form of a word of the denylist) becomes the redaction
    marker; under any other key a value that is itself a map is replaced by
    its own redaction and every other value is passed through unchanged. For
    a key of ASCII characters, matching is being a word of the denylist up to
    the case of the letters [A]-[Z]. The map
    [{username: u, password: p, api_key: k}] becomes
    [{username: u, password: [REDACTED], api_key: [REDACTED]}]. *)
Theorem redact_sensitive_spec :
  (forall params : PyDict.t value,
      PyDict.wf params ->
      PyDict.keys (_redact_sensitive str_lower params) = PyDict.keys params /\
      forall key val,
        PyDict.get key params = Some val ->
        (matches_denylist str_lower key ->
         PyDict.get key (_redact_sensitive str_lower params)
         = Some (VStr "[REDACTED]")) /\
        (~ matches_denylist str_lower key ->
         forall d, val = VDict d ->
         PyDict.get key (_redact_sensitive str_lower params)
         = Some (VDict (_redact_sensitive str_lower d))) /\
        (~ matches_denylist str_lower key ->
         (forall d, val <> VDict d) ->
         PyDict.get key (_redact_sensitive str_lower params) = Some val)) /\
  (forall key,
      PyStr.is_ascii key = true ->
      matches_denylist str_lower key <-> denylisted key) /\
  _redact_sensitive str_lower login_params
  = [("username", VStr "u"); ("password", VStr "[REDACTED]");
     ("api_key", VStr "[REDACTED]")].
Proof.
  split_and!.
  - intros params Hwf. rewrite _redact_sensitive_map by exact Hwf. split.
    + unfold PyDict.keys. rewrite map_map. reflexivity.
    + intros key val Hget.
      rewrite (PyDict.get_map_values (redacted_value str_lower)), Hget.
      cbn [option_map]. unfold redacted_value.
      rewrite <- is_sensitive_matches.
      destruct (is_sensitive str_lower key) eqn:Hs; split_and!; try done.
      * intros _ d ->. reflexivity.
      * intros _ Hnd. destruct val; try reflexivity. by destruct (Hnd entries).
  - exact matches_denylist_ascii.
  - rewrite _redact_sensitive_map
      by (unfold PyDict.wf; apply (bool_decide_unpack _); reflexivity).
    unfold login_params, redacted_value, is_sensitive. cbn [map fst snd].
    rewrite !str_lower_ascii by reflexivity. reflexivity.
Qed.

(** C10. Redaction does not descend into lists, but a list is no exception
    to the denylist: a value that is a list is passed through unchanged,
    whatever it contains, also maps with denylisted keys, when its key does
    not match the denylist, and is replaced by the marker when its key
    matches. *)
Theorem redact_sensitive_keeps_lists (params : PyDict.t value) key items :
  PyDict.wf params ->
  PyDict.get key params = Some (VList items) ->
  (~ matches_denylist str_lower key ->
   PyDict.get key (_redact_sensitive str_lower params) = Some (VList items)) /\
  (matches_denylist str_lower key ->
   PyDict.get key (_redact_sensitive str_lower params) = Some (VStr "[REDACTED]")).
Proof.
  intros Hwf Hget. rewrite _redact_sensitive_map by exact Hwf.
  rewrite (PyDict.get_map_values (redacted_value str_lower)), Hget.
  cbn [option_map]. unfold redacted_value. split.
  - intros Hkey%not_sensitive_matches. by rewrite Hkey.
  - intros Hkey%is_sensitive_matches. by rewrite Hkey.
Qed.

End RedactionProperties.

Lemma kelvin_token_matches :
  Redaction.matches_denylist lower_with_kelvin kelvin_token.
Proof. exists "token". split; [set_solver|reflexivity]. Qed.

Lemma users_not_matching :
  ~ Redaction.matches_denylist lower_with_kelvin "users".
Proof.
  intros (w & Hw & Heq). unfold Redaction.DENYLIST in Hw.
  repeat (apply elem_of_cons in Hw as [->|Hw]); try discriminate Heq.
  by apply elem_of_nil in Hw.
Qed.

(** With a lowering that knows the Kelvin sign, the key [TO], Kelvin sign,
    [EN] is redacted, as in Python. *)
Lemma redact_sensitive_spec_witness :
  PyDict.wf [(kelvin_token, VStr "t")] /\
  PyDict.get kelvin_token
    (Redaction._redact_sensitive lower_with_kelvin [(kelvin_token, VStr "t")])
  = Some (VStr "[REDACTED]").
Proof.
  assert (Hwf : PyDict.wf [(kelvin_token, VStr "t")]).
  { unfold PyDict.wf. apply (bool_decide_unpack _). reflexivity. }
  split; [exact Hwf|].
  refine (proj1 (proj2 (proj1 (redact_sensitive_spec lower_with_kelvin
            lower_with_kelvin_ascii) _ Hwf) kelvin_token (VStr "t") _) _).
  - reflexivity.
  - exact kelvin_token_matches.
Defined.

Lemma redact_sensitive_keeps_lists_witness :
  PyDict.get "users" (Redaction._redact_sensitive lower_with_kelvin nested_list_params)
  = Some (VList [VDict [("name", VStr "ann"); ("password", VStr "p")]]).
Proof.
  refine (proj1 (redact_sensitive_keeps_lists lower_with_kelvin
            lower_with_kelvin_ascii nested_list_params "users" _ _ _)
            users_not_matching).
  - unfold PyDict.wf. apply (bool_decide_unpack _). reflexivity.
  - reflexivity.
Defined.

(** A list under the key [token] does not pass through: the whole list is
    replaced by the marker, whatever [str.lower] does outside ASCII. *)
Lemma redact_sensitive_list_under_token :
  PyDict.wf token_list_params /\
  PyDict.get "token" token_list_params
  = Some (VList [VDict [("name", VStr "ann"); ("password", VStr "p")]]) /\
  (forall str_lower : string -> string,
      (forall s, PyStr.is_ascii s = true -> str_lower s = PyStr.ascii_lower s) ->
      PyDict.get "token" (Redaction._redact_sensitive str_lower token_list_params)
      = Some (VStr "[REDACTED]")).
Proof.
  split_and!.
  - unfold PyDict.wf. apply (bool_decide_unpack _). reflexivity.
  - reflexivity.
  - intros str_lower Hascii.
    rewrite Redaction._redact_sensitive_eq. unfold token_list_params.
    cbn [fold_left Redaction.redact_item]. unfold Redaction.is_sensitive.
    rewrite Hascii by reflexivity. reflexivity.
Qed.

(** ** Registry *)

Section RegistryProperties.
Import Registry.

Lemma contains_get {V} k (d : PyDict.t V) :
  PyDict.contains k d = true <-> is_Some (PyDict.get k d).
Proof.
  unfold PyDict.contains. destruct (PyDict.get k d); split; try done.
Qed.

Definition hr_get_employee : ToolDefinition :=
  mkToolDefinition "get_employee" "hr" "Get employee" "1.0.0" [] [] READ
    default_Permission [] [] false.

(** C8. [register] raises the duplicate-tool error exactly when the qualified
    name of the tool is already a key of the registry, and returns otherwise;
    when it raises the registry is unchanged, so the definition registered
    first is still the one [get] returns; after a successful [register],
    [get] of the qualified name returns the definition passed in. *)
Theorem register_spec (self : ToolRegistry) (tool : ToolDefinition) :
  (fst (register self tool)
   = Raised (ValueError ("Tool '" +:+ qualified_name tool +:+ "' is already registered"))
   <-> is_Some (get self (qualified_name tool))) /\
  (fst (register self tool) = Returned tt <-> get self (qualified_name tool) = None) /\
  (is_Some (get self (qualified_name tool)) -> snd (register self tool) = self) /\
  (forall first, get self (qualified_name tool) = Some first ->
                 get (snd (register self tool)) (qualified_name tool) = Some first) /\
  (fst (register self tool) = Returned tt ->
   get (snd (register self tool)) (qualified_name tool) = Some tool).
Proof.
  unfold register, get.
  pose proof (contains_get (qualified_name tool) (_tools self)) as Hc.
  destruct (PyDict.contains (qualified_name tool) (_tools self)) eqn:Hcontains; cbn.
  - assert (Hsome : is_Some (PyDict.get (qualified_name tool) (_tools self)))
      by (by apply Hc).
    split_and!; try done.
    split; [done|]. intros Hnone. rewrite Hnone in Hsome. by destruct Hsome.
  - assert (Hnone : PyDict.get (qualified_name tool) (_tools self) = None).
    { destruct (PyDict.get (qualified_name tool) (_tools self)) eqn:Hget; [|done].
      assert (false = true) by (apply Hc; by eexists). done. }
    rewrite Hnone. split_and!; try done.
    all: try (by intros [? ?]).
    all: try (split; [done | by intros [? ?]]).
    all: intros _; apply PyDict.get_set_eq.
Qed.

Definition hr_registry : ToolRegistry := snd (register empty hr_get_employee).

Lemma register_spec_witness :
  snd (register hr_registry hr_get_employee) = hr_registry /\
  get hr_registry "hr.get_employee" = Some hr_get_employee.
Proof.
  split.
  - apply (proj1 (proj2 (proj2 (register_spec _ hr_get_employee)))).
    eexists. reflexivity.
  - apply (proj2 (proj2 (proj2 (proj2 (register_spec empty hr_get_employee))))).
    reflexivity.
Defined.

Definition legacy_ping : ToolDefinition :=
  mkToolDefinition "ping" "legacy" "Ping" "1.0.0" [] [] READ
    (mkPermission PUBLIC [] []) [] [] true.

(** C9, as stated, fails on a deprecated tool: it is registered and public,
    and the listing for any caller roles leaves it out. *)
Definition legacy_registry : ToolRegistry := snd (register empty legacy_ping).

Lemma get_tools_for_llm_omits_deprecated :
  get legacy_registry "legacy.ping" = Some legacy_ping /\
  p_level (t_permissions legacy_ping) = PUBLIC /\
  get_tools_for_llm legacy_registry None (Some ["user"]) = [].
Proof. split_and!; reflexivity. Qed.

Lemma llm_visible_spec roles tool :
  llm_visible roles tool = true <->
  p_level (t_permissions tool) = PUBLIC \/
  (exists role, role ∈ roles /\ role ∈ p_roles (t_permissions tool)) \/
  (p_level (t_permissions tool) = USER /\ roles <> []).
Proof.
  unfold llm_visible. rewrite <- any_in_spec.
  destruct (p_level (t_permissions tool)); cbn;
    destruct (any_in roles (p_roles (t_permissions tool))); cbn;
    destruct roles; cbn; intuition congruence.
Qed.

(** C9, amended. With caller roles supplied, the listing is the formatted
    list of exactly those registered tools that are not deprecated, lie in
    one of the requested domains when a non-empty domain filter is given, and
    are public, or share a role with the caller, or are user-level while the
    caller has at least one role. *)
Theorem get_tools_for_llm_spec (self : ToolRegistry) (domains : option (list string))
    (user_roles : list string) :
  get_tools_for_llm self domains (Some user_roles)
  = map llm_format (tools_for_llm self domains (Some user_roles)) /\
  forall tool,
    tool ∈ tools_for_llm self domains (Some user_roles) <->
    tool ∈ PyDict.values (_tools self) /\
    t_deprecated tool = false /\
    match domains with
    | Some (d :: ds) => t_domain tool ∈ d :: ds
    | _ => True
    end /\
    (p_level (t_permissions tool) = PUBLIC \/
     (exists role, role ∈ user_roles /\ role ∈ p_roles (t_permissions tool)) \/
     (p_level (t_permissions tool) = USER /\ user_roles <> [])).
Proof.
  split; [reflexivity|]. intros tool.
  rewrite <- llm_visible_spec. unfold tools_for_llm, list_tools.
  rewrite !list_elem_of_In. cbn [negb].
  destruct domains as [[|d ds]|]; cbn [truthy_list];
    rewrite ?filter_In, negb_true_iff; unfold py_in;
    rewrite ?bool_decide_eq_true, ?list_elem_of_In; tauto.
Qed.

End RegistryProperties.

(** ** Authorization *)

Section AuthProperties.
Import Auth.

(** The gates of the specification, in its order. *)
Inductive gate : Type := SystemGate | AdminGate | RolesGate | ScopesGate.

Definition gate_order : list gate := [SystemGate; AdminGate; RolesGate; ScopesGate].

(** Whether a gate applies to the tool and the identity does not pass it. *)
Definition gate_denies (g : gate) (tool : ToolDefinition) (user : UserContext) : bool :=
  let permission := t_permissions tool in
  match g with
  | SystemGate =>
      bool_decide (p_level permission = SYSTEM) && negb (py_in "system" (u_roles user))
  | AdminGate =>
      bool_decide (p_level permission = ADMIN) && negb (py_in "admin" (u_roles user))
  | RolesGate =>
      truthy_list (p_roles permission)
      && negb (any_in (p_roles permission) (u_roles user))
  | ScopesGate =>
      truthy_list (p_scopes permission)
      && negb (any_in (p_scopes permission) (u_permissions user))
  end.

Definition gate_reason (g : gate) (tool : ToolDefinition) : string :=
  match g with
  | SystemGate => "System-level access required"
  | AdminGate => "Admin access required"
  | RolesGate => "Required roles: " +:+ PyStr.join ", " (p_roles (t_permissions tool))
  | ScopesGate => "Required scopes: " +:+ PyStr.join ", " (p_scopes (t_permissions tool))
  end.

(** Public tools are allowed; otherwise the first gate of [gate_order] that
    denies decides, with its reason; otherwise allow. *)
Definition authorize_by_gates (tool : ToolDefinition) (user : UserContext)
  : bool * option string :=
  if bool_decide (p_level (t_permissions tool) = PUBLIC) then (true, None)
  else match List.find (fun g => gate_denies g tool user) gate_order with
       | Some g => (false, Some (gate_reason g tool))
       | None => (true, None)
       end.

Lemma authorize_request_by_gates tool user context :
  authorize_request tool user context = authorize_by_gates tool user.
Proof.
  unfold authorize_request, authorize_by_gates, gate_order, gate_denies, gate_reason.
  cbn [List.find].
  destruct (p_level (t_permissions tool)); cbn;
    destruct (py_in "system" (u_roles user)), (py_in "admin" (u_roles user)); cbn;
    destruct (truthy_list (p_roles (t_permissions tool))); cbn;
    destruct (any_in (p_roles (t_permissions tool)) (u_roles user)); cbn;
    destruct (truthy_list (p_scopes (t_permissions tool))); cbn;
    destruct (any_in (p_scopes (t_permissions tool)) (u_permissions user)); cbn;
    reflexivity.
Qed.

Lemma gate_reason_inj g1 g2 tool1 tool2 :
  gate_reason g1 tool1 = gate_reason g2 tool2 -> g1 = g2.
Proof. destruct g1, g2; cbn; intros H; first [reflexivity | discriminate H]. Qed.

Lemma truthy_list_nonempty {A} (l : list A) : truthy_list l = true <-> l <> [].
Proof. destruct l; cbn; split; congruence. Qed.

Definition restart_cluster : ToolDefinition :=
  mkToolDefinition "restart_cluster" "devops" "Restart a cluster" "1.0.0" [] [] WRITE
    (mkPermission ADMIN ["sre"; "platform"] ["cluster:write"]) [] [] false.

Definition sre_admin : UserContext :=
  mkUserContext "u7" "dana" None ["admin"; "sre"] ["cluster:write"] [].

Definition plain_admin : UserContext :=
  mkUserContext "u8" "eli" None ["admin"] ["cluster:write"] [].

Definition request_context (user : UserContext) : ExecutionContext :=
  mkExecutionContext "req1" user 0 "mcp_client" None None.

(** C3. [authorize_request] allows every public tool and otherwise runs the
    gates system, admin, required roles, required scopes in this order, the
    first gate that denies giving the result and its reason; the reasons of
    different gates differ; the gates are cumulative: an admin-level tool with
    a non-empty set of required roles allows an identity exactly when it has
    role admin, has one of the required roles and, when scopes are required,
    has one of the required scopes. *)
Theorem authorize_request_gates :
  (forall tool user context,
      authorize_request tool user context = authorize_by_gates tool user) /\
  (forall g1 g2 tool1 tool2, gate_reason g1 tool1 = gate_reason g2 tool2 -> g1 = g2) /\
  (forall tool user context,
      p_level (t_permissions tool) = ADMIN ->
      p_roles (t_permissions tool) <> [] ->
      (fst (authorize_request tool user context) = true <->
       "admin" ∈ u_roles user /\
       (exists role, role ∈ p_roles (t_permissions tool) /\ role ∈ u_roles user) /\
       (p_scopes (t_permissions tool) = [] \/
        exists scope, scope ∈ p_scopes (t_permissions tool)
                      /\ scope ∈ u_permissions user))).
Proof.
  split_and!.
  - apply authorize_request_by_gates.
  - apply gate_reason_inj.
  - intros tool user context Hlevel Hroles.
    rewrite <- !any_in_spec.
    apply truthy_list_nonempty in Hroles.
    assert (Hscopes : truthy_list (p_scopes (t_permissions tool)) = false ->
                      p_scopes (t_permissions tool) = []).
    { destruct (p_scopes (t_permissions tool)); [done | discriminate]. }
    pose proof (truthy_list_nonempty (p_scopes (t_permissions tool))) as Hscopes'.
    unfold authorize_request. rewrite Hlevel, Hroles.
    repeat case_decide; try done. unfold py_in.
    destruct (bool_decide_reflect ("admin" ∈ u_roles user)) as [Hadmin|Hadmin];
      destruct (any_in (p_roles (t_permissions tool)) (u_roles user));
      destruct (truthy_list (p_scopes (t_permissions tool)));
      destruct (any_in (p_scopes (t_permissions tool)) (u_permissions user));
      cbn; intuition congruence.
Qed.

Lemma authorize_request_gates_witness :
  fst (authorize_request restart_cluster sre_admin (request_context sre_admin)) = true /\
  authorize_request restart_cluster plain_admin (request_context plain_admin)
  = (false, Some "Required roles: sre, platform").
Proof.
  split.
  - apply (proj2 (proj2 authorize_request_gates) restart_cluster sre_admin
             (request_context sre_admin)).
    + reflexivity.
    + discriminate.
    + split_and!.
      * apply (bool_decide_unpack _). reflexivity.
      * exists "sre". split; apply (bool_decide_unpack _); reflexivity.
      * right. exists "cluster:write". split; apply (bool_decide_unpack _); reflexivity.
  - rewrite (proj1 authorize_request_gates). reflexivity.
Defined.

End AuthProperties.

(** ** Audit buffer *)

Section AuditProperties.
Import Audit.
Variable model_dump_json : AuditEntry -> string.

Definition line_of (entry : AuditEntry) : string := model_dump_json entry +:+ newline.

Lemma _flush_empty io self : _buffer self = [] -> _flush model_dump_json io self = self.
Proof. unfold _flush. by intros ->. Qed.

Lemma _flush_error self written msg :
  _flush model_dump_json (IoError written msg) self
  = mkAuditLogger (log_path self) (enabled self) (buffer_size self) (_buffer self)
      (log_file self ++ map line_of (take written (_buffer self))).
Proof.
  unfold _flush. destruct self as [path en size buffer file]. cbn.
  destruct buffer as [|entry rest]; cbn.
  - rewrite take_nil. cbn. by rewrite app_nil_r.
  - reflexivity.
Qed.

Lemma _flush_ok self :
  _flush model_dump_json IoOk self
  = mkAuditLogger (log_path self) (enabled self) (buffer_size self) []
      (log_file self ++ map line_of (_buffer self)).
Proof.
  unfold _flush. destruct self as [path en size buffer file]. cbn.
  destruct buffer as [|entry rest]; cbn; [by rewrite app_nil_r | reflexivity].
Qed.

(** C7. A flush that fails with an I/O error loses no entry: the buffer
    afterwards starts with (indeed is) the entries that were pending, in
    their order, so that the next successful flush writes every one of them;
    a flush of an empty buffer changes nothing, whatever the file system
    would answer. *)
Theorem flush_failure_keeps_entries :
  (forall self written msg,
      _buffer (flush model_dump_json (IoError written msg) self) = _buffer self) /\
  (forall self written msg,
      exists later, _buffer (flush model_dump_json (IoError written msg) self)
                    = _buffer self ++ later) /\
  (forall self written msg entry,
      entry ∈ _buffer self ->
      line_of entry ∈ log_file (flush model_dump_json IoOk
                                  (flush model_dump_json (IoError written msg) self))) /\
  (forall io self, _buffer self = [] -> flush model_dump_json io self = self).
Proof.
  unfold flush. split_and!.
  - intros self written msg. by rewrite _flush_error.
  - intros self written msg. exists []. by rewrite _flush_error, app_nil_r.
  - intros self written msg entry Hin. rewrite _flush_ok, _flush_error. cbn.
    apply elem_of_app. right. by apply list_elem_of_fmap_2.
  - intros io self. apply _flush_empty.
Qed.

End AuditProperties.

Definition sample_entry (n : Z) : AuditEntry :=
  mkAuditEntry "id" n "user1" "test" "test.test_action" "test" READ [] SUCCESS None
    0%float "req1" None.

Definition sample_dump (entry : AuditEntry) : string :=
  a_id entry +:+ " " +:+ a_tool_name entry.

Definition pending_logger : Audit.AuditLogger :=
  Audit.mkAuditLogger "logs/audit.log" true 100 [sample_entry 1; sample_entry 2] [].

Definition idle_logger : Audit.AuditLogger :=
  Audit.mkAuditLogger "logs/audit.log" true 100 [] ["earlier line"].

Lemma flush_failure_keeps_entries_witness :
  Audit.flush sample_dump (Audit.IoError 1 "disk full") idle_logger = idle_logger /\
  line_of sample_dump (sample_entry 2)
  ∈ Audit.log_file
      (Audit.flush sample_dump Audit.IoOk
         (Audit.flush sample_dump (Audit.IoError 1 "disk full") pending_logger)).
Proof.
  split.
  - apply (proj2 (proj2 (proj2 (flush_failure_keeps_entries sample_dump)))).
    reflexivity.
  - apply (proj1 (proj2 (proj2 (flush_failure_keeps_entries sample_dump)))).
    cbn. apply elem_of_cons. right. apply elem_of_cons. by left.
Defined.

(** ** Execution pipeline *)

Section RouterProperties.
Import Router Audit.
Variable iter_errors : PyDict.t value -> value -> outcome (list Schema.ValidationError).
Variable model_dump_json : AuditEntry -> string.
Variable str_lower : string -> string.

Abbreviation run_execute := (execute iter_errors model_dump_json str_lower).
Abbreviation run_validate self call :=
  (Registry.validate_input iter_errors (registry self) (call_tool_name call)
     (call_parameters call)).

Lemma execute_not_found env self call :
  Registry.get (registry self) (call_tool_name call) = None ->
  run_execute env self call
  = (Returned
       (ToolResult_ (call_tool_name call) NOT_FOUND None
          (Some ("Tool '" +:+ call_tool_name call +:+ "' not found"))
          (Some "TOOL_NOT_FOUND")),
     self).
Proof. intros Hget. unfold execute. by rewrite Hget. Qed.

(** An exception of the validation leaves [execute] as it is, before any
    audit; nothing else makes [execute] raise. *)
Lemma execute_validation_raises env self call tool e :
  Registry.get (registry self) (call_tool_name call) = Some tool ->
  run_validate self call = Raised e ->
  run_execute env self call = (Raised e, self).
Proof. intros Hget Hvalid. unfold execute. by rewrite Hget, Hvalid. Qed.

Lemma execute_raises_only_validation env self call e :
  fst (run_execute env self call) = Raised e ->
  run_validate self call = Raised e.
Proof.
  unfold execute.
  destruct (Registry.get (registry self) (call_tool_name call)) as [tool|];
    [|discriminate].
  destruct (Registry.validate_input _ _ _ _) as [[[] errors]|e'];
    cbn; [| discriminate | congruence].
  destruct (Auth.authorize_request _ _ _) as [[] auth_error]; cbn; [|discriminate].
  destruct (_adapters self !! t_domain tool); discriminate.
Qed.

(** Every result returned for a registered tool goes through one call of
    [log], with the result that is returned. *)
Lemma execute_registered_audited env self call tool result :
  Registry.get (registry self) (call_tool_name call) = Some tool ->
  fst (run_execute env self call) = Returned result ->
  audit_logger (snd (run_execute env self call))
  = log model_dump_json str_lower (log_env env) (audit_logger self) tool call result.
Proof.
  intros Hget. unfold execute. rewrite Hget.
  destruct (Registry.validate_input _ _ _ _) as [[[] errors]|e]; cbn;
    [| congruence | discriminate].
  destruct (Auth.authorize_request _ _ _) as [[] auth_error]; cbn; [|congruence].
  destruct (_adapters self !! t_domain tool); cbn; congruence.
Qed.

(** Only a request that reaches an adapter gets its elapsed time. *)
Lemma execute_dispatched_timed env self call tool adapter errors auth_error :
  Registry.get (registry self) (call_tool_name call) = Some tool ->
  run_validate self call = Returned (true, errors) ->
  Auth.authorize_request tool (ctx_user (call_context call)) (call_context call)
  = (true, auth_error) ->
  _adapters self !! t_domain tool = Some adapter ->
  exists result,
    fst (run_execute env self call) = Returned result /\
    r_execution_time_ms result = elapsed_ms (time_time env 0) (time_time env 1).
Proof.
  intros Hget Hvalid Hauth Hadapter. unfold execute.
  rewrite Hget, Hvalid, Hauth, Hadapter. eexists. split; reflexivity.
Qed.

Lemma execute_early_return_untimed env self call result :
  (forall tool errors auth_error adapter,
      Registry.get (registry self) (call_tool_name call) = Some tool ->
      run_validate self call = Returned (true, errors) ->
      Auth.authorize_request tool (ctx_user (call_context call)) (call_context call)
      = (true, auth_error) ->
      _adapters self !! t_domain tool = Some adapter -> False) ->
  fst (run_execute env self call) = Returned result ->
  r_execution_time_ms result = 0%float.
Proof.
  intros Hearly. unfold execute.
  destruct (Registry.get (registry self) (call_tool_name call)) as [tool|] eqn:Hget;
    [|by intros [= <-]].
  destruct (Registry.validate_input _ _ _ _) as [[[] errors]|e] eqn:Hvalid; cbn;
    [| by intros [= <-] | discriminate].
  destruct (Auth.authorize_request _ _ _) as [[] auth_error] eqn:Hauth; cbn;
    [|by intros [= <-]].
  destruct (_adapters self !! t_domain tool) as [adapter|] eqn:Hadapter; cbn;
    [|by intros [= <-]].
  destruct (Hearly tool errors auth_error adapter); done.
Qed.

(** C1 (not met by the code). For every request whose tool name is not in
    the registry, [execute] returns a result of status [NOT_FOUND] and leaves
    the audit logger exactly as it was: [log] is not called and no audit entry
    is produced, where the claim asks for exactly one. *)
Theorem execute_unknown_tool_not_audited env self call :
  Registry.get (registry self) (call_tool_name call) = None ->
  (exists result,
      fst (run_execute env self call) = Returned result /\
      r_status result = NOT_FOUND) /\
  audit_logger (snd (run_execute env self call)) = audit_logger self.
Proof.
  intros Hget. rewrite execute_not_found by exact Hget.
  split; [eexists; split; reflexivity | reflexivity].
Qed.

End RouterProperties.

(** The scenario of [tests/test_mcp_server.py::test_execute_unknown_tool], with
    the audit logger enabled, and an unauthorized call of a registered tool.
    The clock reads 100 s at entry and 100.25 s afterwards; the validator
    finds no error. *)
Definition always_valid (schema : PyDict.t value) (data : value)
  : outcome (list Schema.ValidationError) := Returned [].

Definition test_user : UserContext := mkUserContext "user1" "test" None [] [] [].

Definition unknown_call : ToolCall :=
  mkToolCall "unknown.tool" [] (request_context test_user).

Definition restart_call : ToolCall :=
  mkToolCall "devops.restart_cluster" [] (request_context test_user).

Definition enabled_logger : Audit.AuditLogger :=
  Audit.mkAuditLogger "logs/audit.log" true 100 [] [].

Definition empty_router : Router.ToolRouter :=
  Router.mkToolRouter Registry.empty enabled_logger ∅.

Definition devops_router : Router.ToolRouter :=
  Router.mkToolRouter (snd (Registry.register Registry.empty restart_cluster))
    enabled_logger ∅.

Definition quarter_second : Router.RouterEnv :=
  Router.mkRouterEnv (fun k => match k with O => 100%float | _ => 100.25%float end)
    (Audit.mkLogEnv "audit-1" 0 Audit.IoOk).

(** [execute] in this scenario. *)
Definition sample_execute (self : Router.ToolRouter) (call : ToolCall)
  : outcome ToolResult * Router.ToolRouter :=
  Router.execute always_valid sample_dump lower_with_kelvin quarter_second self call.

Lemma execute_unknown_tool_not_audited_witness :
  (exists result,
      fst (sample_execute empty_router unknown_call) = Returned result /\
      r_status result = NOT_FOUND) /\
  Router.audit_logger (snd (sample_execute empty_router unknown_call))
  = enabled_logger.
Proof.
  apply (execute_unknown_tool_not_audited always_valid sample_dump lower_with_kelvin
           quarter_second empty_router unknown_call).
  reflexivity.
Defined.

(** C2 (not met by the code). With a quarter of a second between the two
    clock readings: an unknown tool gives [NOT_FOUND] with execution time [0]
    and an empty audit buffer and file (nothing audited); an unauthorized call
    of a registered tool is audited once, but the result and its audit entry
    carry execution time [0], not the 250 ms that elapsed. *)
Theorem execute_early_outcomes_not_timed :
  let not_found := sample_execute empty_router unknown_call in
  let denied := sample_execute devops_router restart_call in
  Router.elapsed_ms (Router.time_time quarter_second 0) (Router.time_time quarter_second 1)
  = 250%float /\
  ((exists result,
       fst not_found = Returned result /\
       r_status result = NOT_FOUND /\
       r_execution_time_ms result = 0%float) /\
   Audit._buffer (Router.audit_logger (snd not_found)) = [] /\
   Audit.log_file (Router.audit_logger (snd not_found)) = []) /\
  ((exists result,
       fst denied = Returned result /\
       r_status result = UNAUTHORIZED /\
       r_execution_time_ms result = 0%float) /\
   map a_status (Audit._buffer (Router.audit_logger (snd denied))) = [UNAUTHORIZED] /\
   map a_execution_time_ms (Audit._buffer (Router.audit_logger (snd denied)))
   = [0%float]).
Proof.
  cbv zeta. split_and!; try (vm_compute; reflexivity);
    eexists; split_and!; vm_compute; reflexivity.
Qed.

(** ** Conversation store *)

Section ConversationProperties.
Import Orchestrator.

(** [most_recent k l]: the last [k] elements of [l]. *)
Definition most_recent {A} (k : nat) (l : list A) : list A := drop (length l - k) l.

(** The words of the specification: go through the messages in their order,
    keep every system message, and of the others drop the oldest until
    [cap - systemCount] are left. *)
Fixpoint keep_dropping (to_drop : nat) (messages : list ConversationMessage)
  : list ConversationMessage :=
  match messages with
  | [] => []
  | m :: rest =>
      if is_system m then m :: keep_dropping to_drop rest
      else match to_drop with
           | O => m :: keep_dropping O rest
           | S d => keep_dropping d rest
           end
  end.

Definition pruned_in_order (cap : Z) (messages : list ConversationMessage)
  : list ConversationMessage :=
  let system_count := length (List.filter is_system messages) in
  let other_count := length (List.filter (fun m => negb (is_system m)) messages) in
  keep_dropping (other_count - Z.to_nat (cap - Z.of_nat system_count)) messages.

Lemma py_slice_from_most_recent {A} (k : Z) (l : list A) :
  (0 < k)%Z -> py_slice_from (- k) l = most_recent (Z.to_nat k) l.
Proof.
  intros Hk. unfold py_slice_from, most_recent.
  destruct (Z.ltb_spec (- k) 0) as [_|Hge]; [|lia].
  f_equal. lia.
Qed.

Lemma keep_dropping_system d (systems rest : list ConversationMessage) :
  Forall (fun m => is_system m = true) systems ->
  keep_dropping d (systems ++ rest) = systems ++ keep_dropping d rest.
Proof.
  induction 1 as [|m systems Hm _ IH]; cbn; [reflexivity|]. by rewrite Hm, IH.
Qed.

Lemma keep_dropping_others d (others : list ConversationMessage) :
  Forall (fun m => is_system m = false) others ->
  keep_dropping d others = drop d others.
Proof.
  intros Hall. revert d. induction Hall as [|m others Hm _ IH]; intros d; cbn.
  - by destruct d.
  - rewrite Hm. destruct d; cbn; [|apply IH]. by rewrite IH, drop_0.
Qed.

Lemma filter_system_Forall (l : list ConversationMessage) :
  Forall (fun m => is_system m = true) (List.filter is_system l).
Proof. apply Forall_forall. intros m Hin. apply list_elem_of_In, filter_In in Hin. tauto. Qed.

Lemma filter_others_Forall (l : list ConversationMessage) :
  Forall (fun m => is_system m = false) (List.filter (fun m => negb (is_system m)) l).
Proof.
  apply Forall_forall. intros m Hin. apply list_elem_of_In, filter_In in Hin.
  destruct Hin as [_ Hm]. by apply negb_true_iff in Hm.
Qed.

Lemma filter_lengths (l : list ConversationMessage) :
  length (List.filter is_system l)
  + length (List.filter (fun m => negb (is_system m)) l) = length l.
Proof. induction l as [|m l IH]; cbn; [done|]. destruct (is_system m); cbn; lia. Qed.

(** What the pruning branch of [append_and_prune] stores when fewer system
    messages than the cap are present. *)
Lemma append_and_prune_over_cap max_length conversation message now :
  let messages := c_messages conversation ++ [message] in
  let system_msgs := List.filter is_system messages in
  let other_msgs := List.filter (fun m => negb (is_system m)) messages in
  (Z.of_nat (length messages) > max_length)%Z ->
  (Z.of_nat (length system_msgs) < max_length)%Z ->
  c_messages (append_and_prune max_length conversation message now)
  = system_msgs
    ++ most_recent (Z.to_nat (max_length - Z.of_nat (length system_msgs))) other_msgs.
Proof.
  intros messages system_msgs other_msgs Hover Hsys. unfold append_and_prune. cbn.
  fold messages. destruct (Z.gtb_spec (Z.of_nat (length messages)) max_length); [|lia].
  fold system_msgs other_msgs. by rewrite py_slice_from_most_recent by lia.
Qed.

Definition stored_messages (w : World) (conversation_id : string)
  : list ConversationMessage :=
  match _conversations w !! conversation_id with
  | Some conversation => c_messages conversation
  | None => []
  end.

(** A clock that stands still, a generous time-to-live, and four
    conversations held by the manager. *)
Definition frozen_clock (k : nat) : Z := 0.

Definition msg (role content : string) : ConversationMessage :=
  mkConversationMessage role content None None 0.

Definition chat (messages : list ConversationMessage) : Conversation :=
  mkConversation "c1" test_user messages 0 0 [].

Definition world_with (messages : list ConversationMessage) : World :=
  mkWorld {[ "c1" := chat messages ]} 0 0 0 [].

(** C5, as stated, fails in two ways. With cap 2, a system message appended
    after two user messages is moved in front of the user message that is
    kept, so the original relative order is not preserved. With cap 1 and the
    system prompt alone, appending a user message keeps that message, one
    more than the [cap - 1 = 0] others of the claim. *)
Lemma add_message_prune_counterexample :
  (stored_messages
     (snd (add_message frozen_clock 2 3600 "c1" "system" "be brief" None None
             (world_with [msg "user" "hi"; msg "user" "again"]))) "c1"
   = [msg "system" "be brief"; msg "user" "again"] /\
   pruned_in_order 2 [msg "user" "hi"; msg "user" "again"; msg "system" "be brief"]
   = [msg "user" "again"; msg "system" "be brief"]) /\
  (stored_messages
     (snd (add_message frozen_clock 1 3600 "c1" "user" "hi" None None
             (world_with [msg "system" "System"]))) "c1"
   = [msg "system" "System"; msg "user" "hi"] /\
   pruned_in_order 1 [msg "system" "System"; msg "user" "hi"] = [msg "system" "System"]).
Proof. split_and!; vm_compute; reflexivity. Qed.

(** C5, amended. When an append to a live conversation takes the message
    count over the cap while fewer system messages than the cap are present,
    the stored messages are all system messages, in their order, followed by
    the most recent [cap - systemCount] other messages, in their order: [cap]
    messages in all. When the system messages all precede the others, as the
    system prompt of [create] does, these are the messages of the
    specification, in their original relative order. *)
Theorem add_message_prunes utcnow max_length ttl (w : World) conversation_id conversation
    role content tool_calls tool_call_id :
  let message :=
    mkConversationMessage role content tool_calls tool_call_id
      (utcnow (S (clock_reads w))) in
  let messages := c_messages conversation ++ [message] in
  let system_msgs := List.filter is_system messages in
  let other_msgs := List.filter (fun m => negb (is_system m)) messages in
  let after :=
    add_message utcnow max_length ttl conversation_id role content tool_calls
      tool_call_id w in
  _conversations w !! conversation_id = Some conversation ->
  (utcnow (clock_reads w) - c_updated_at conversation <= ttl)%Z ->
  (Z.of_nat (length messages) > max_length)%Z ->
  (Z.of_nat (length system_msgs) < max_length)%Z ->
  fst after = Returned (Some message) /\
  stored_messages (snd after) conversation_id
  = system_msgs
    ++ most_recent (Z.to_nat (max_length - Z.of_nat (length system_msgs))) other_msgs /\
  Z.of_nat (length (stored_messages (snd after) conversation_id)) = max_length /\
  (messages = system_msgs ++ other_msgs ->
   stored_messages (snd after) conversation_id = pruned_in_order max_length messages /\
   stored_messages (snd after) conversation_id `sublist_of` messages).
Proof.
  intros message messages system_msgs other_msgs after Hlookup Hlive Hover Hsys.
  assert (Hrun : after
    = (Returned (Some message),
       set_conversations
         (<[conversation_id :=
              append_and_prune max_length conversation message
                (utcnow (S (S (clock_reads w))))]> (_conversations w))
         (mkWorld (_conversations w) (S (S (S (clock_reads w)))) (uuid_reads w)
            (llm_calls w) (execute_calls w)))).
  { unfold after, add_message, bind, get. rewrite Hlookup. unfold bind, datetime_utcnow.
    cbn. destruct (Z.gtb_spec (utcnow (clock_reads w) - c_updated_at conversation) ttl);
      [lia|]. reflexivity. }
  pose proof (filter_lengths messages) as Hlen. fold system_msgs other_msgs in Hlen.
  assert (Hstored : stored_messages (snd after) conversation_id
    = system_msgs
      ++ most_recent (Z.to_nat (max_length - Z.of_nat (length system_msgs))) other_msgs).
  { rewrite Hrun. unfold stored_messages. cbn. rewrite lookup_insert_eq.
    by apply append_and_prune_over_cap. }
  rewrite Hrun at 1. rewrite Hstored. split_and!; try reflexivity.
  - rewrite length_app. unfold most_recent. rewrite length_drop. lia.
  - intros Hordered. split.
    + unfold pruned_in_order. fold system_msgs other_msgs.
      rewrite Hordered at 1.
      rewrite keep_dropping_system by apply filter_system_Forall.
      rewrite keep_dropping_others by apply filter_others_Forall.
      reflexivity.
    + rewrite Hordered at 1. apply sublist_app; [done|]. apply sublist_drop.
Qed.

(** The scenario of [tests/test_orchestrator.py::test_message_limit]: cap 5,
    the system prompt and four user messages stored, a fifth appended. *)
Lemma add_message_prunes_witness :
  stored_messages
    (snd (add_message frozen_clock 5 3600 "c1" "user" "Message 4" None None
            (world_with [msg "system" "System"; msg "user" "Message 0";
                         msg "user" "Message 1"; msg "user" "Message 2";
                         msg "user" "Message 3"]))) "c1"
  = [msg "system" "System"] ++
    most_recent 4 [msg "user" "Message 0"; msg "user" "Message 1";
                   msg "user" "Message 2"; msg "user" "Message 3";
                   msg "user" "Message 4"].
Proof.
  refine (proj1 (proj2 (add_message_prunes frozen_clock 5 3600
           (world_with [msg "system" "System"; msg "user" "Message 0";
                        msg "user" "Message 1"; msg "user" "Message 2";
                        msg "user" "Message 3"])
           "c1" (chat [msg "system" "System"; msg "user" "Message 0";
                       msg "user" "Message 1"; msg "user" "Message 2";
                       msg "user" "Message 3"])
           "user" "Message 4" None None _ _ _ _))).
  - reflexivity.
  - unfold frozen_clock. cbn. lia.
  - cbn. lia.
  - cbn. lia.
Defined.

End ConversationProperties.

(** ** Agent loop *)

Section AgentLoopProperties.
Import Orchestrator.
Variable utcnow : nat -> Z.
Variable llm_complete :
  nat -> list ConversationMessage -> option (list value) -> outcome LLMResponse.
Variable mcp_client_execute : nat -> string -> value -> string -> outcome ToolResult.
Variable json_loads : string -> option value.
Variable json_dumps : value -> string.
Variable max_length : Z.
Variable ttl : Z.

(** [runs m dl de post]: from every state [m] returns, with a value that
    satisfies [post], after exactly [dl] model calls and at most [de] calls
    of the execution client. *)
Definition runs {A} (m : M A) (dl de : nat) (post : A -> Prop) : Prop :=
  forall w, exists a w',
    m w = (Returned a, w') /\ post a /\
    llm_calls w' = llm_calls w + dl /\
    length (execute_calls w') <= length (execute_calls w) + de.

Lemma runs_ret {A} (a : A) (post : A -> Prop) : post a -> runs (ret a) 0 0 post.
Proof. intros Hpost w. exists a, w. unfold ret. split_and!; [done..|lia|lia]. Qed.

Lemma runs_bind {A B} (m : M A) (k : A -> M B) dl1 de1 dl2 de2 P Q :
  runs m dl1 de1 P -> (forall a, P a -> runs (k a) dl2 de2 Q) ->
  runs (bind m k) (dl1 + dl2) (de1 + de2) Q.
Proof.
  intros Hm Hk w. destruct (Hm w) as (a & w1 & Hrun & Hpost & Hl & He).
  destruct (Hk a Hpost w1) as (b & w2 & Hrun2 & Hpost2 & Hl2 & He2).
  exists b, w2. unfold bind. rewrite Hrun. split_and!; [done..|lia|lia].
Qed.

Lemma runs_weaken {A} (m : M A) dl de dl' de' (P Q : A -> Prop) :
  runs m dl de P -> dl = dl' -> de <= de' -> (forall a, P a -> Q a) ->
  runs m dl' de' Q.
Proof.
  intros Hm -> Hde HPQ w. destruct (Hm w) as (a & w1 & Hrun & Hpost & Hl & He).
  exists a, w1. split_and!; [done|by apply HPQ|lia|lia].
Qed.

(** A computation that calls neither the model nor the client. *)
Definition quiet {A} (m : M A) : Prop := runs m 0 0 (fun _ => True).

Lemma quiet_bind {A B} (m : M A) (k : A -> M B) :
  quiet m -> (forall a, quiet (k a)) -> quiet (bind m k).
Proof. intros Hm Hk. apply (runs_bind m k 0 0 0 0 (fun _ => True)); [done|]. intros a _. apply Hk. Qed.

Lemma quiet_ret {A} (a : A) : quiet (ret a).
Proof. by apply runs_ret. Qed.

Lemma quiet_step {A} (a : A) (f : World -> World) :
  (forall w, llm_calls (f w) = llm_calls w /\ execute_calls (f w) = execute_calls w) ->
  quiet (fun w => (Returned a, f w)).
Proof.
  intros Hf w. exists a, (f w). destruct (Hf w) as [-> ->]. split_and!; [done..|lia|lia].
Qed.

Lemma quiet_datetime_utcnow : quiet (datetime_utcnow utcnow).
Proof. intros w. eexists _, _. split_and!; [reflexivity|done|cbn; lia|cbn; lia]. Qed.

Lemma quiet_delete conversation_id : quiet (delete conversation_id).
Proof.
  intros w. unfold delete. destruct (_conversations w !! conversation_id);
    eexists _, _; (split_and!; [reflexivity|done|cbn; lia|cbn; lia]).
Qed.

Lemma quiet_get conversation_id : quiet (get utcnow ttl conversation_id).
Proof.
  intros w. unfold get.
  destruct (_conversations w !! conversation_id) as [conversation|].
  - revert w. apply quiet_bind; [apply quiet_datetime_utcnow|]. intros now.
    destruct (now - c_updated_at conversation >? ttl)%Z; [|apply quiet_ret].
    apply quiet_bind; [apply quiet_delete|]. intros _. apply quiet_ret.
  - exists None, w. split_and!; [done..|lia|lia].
Qed.

Lemma quiet_add_message conversation_id role content tool_calls tool_call_id :
  quiet (add_message utcnow max_length ttl conversation_id role content tool_calls
           tool_call_id).
Proof.
  unfold add_message. apply quiet_bind; [apply quiet_get|]. intros [conversation|];
    [|apply quiet_ret].
  apply quiet_bind; [apply quiet_datetime_utcnow|]. intros ts.
  apply quiet_bind; [apply quiet_datetime_utcnow|]. intros now.
  apply (quiet_step _ (fun w => set_conversations _ w)). intros w. by split.
Qed.

Lemma quiet_get_messages conversation_id include_system :
  quiet (get_messages utcnow ttl conversation_id include_system).
Proof.
  unfold get_messages. apply quiet_bind; [apply quiet_get|].
  intros [conversation|]; apply quiet_ret.
Qed.

(** The model answers every completion with a non-empty list of at most
    [per_turn] tool calls. *)
Definition requests_tools (per_turn : nat) (response : LLMResponse) : Prop :=
  exists first others,
    tool_calls response = Some (first :: others) /\
    length (first :: others) <= per_turn.

Definition model_always_requests_tools (per_turn : nat) : Prop :=
  forall k messages tools, exists response,
    llm_complete k messages tools = Returned response /\
    requests_tools per_turn response.

(** [mcp_client.execute] hands back a result, whatever its status, and does
    not raise. *)
Definition client_always_returns : Prop :=
  forall k tool_name parameters request_id, exists result,
    mcp_client_execute k tool_name parameters request_id = Returned result.

Lemma runs_llm_call per_turn messages tools :
  model_always_requests_tools per_turn ->
  runs (llm_call llm_complete messages tools) 1 0 (requests_tools per_turn).
Proof.
  intros Hllm w. destruct (Hllm (llm_calls w) messages tools) as (response & Hresp & Hreq).
  eexists response, _. unfold llm_call. rewrite Hresp.
  split_and!; [reflexivity|done|cbn; lia|cbn; lia].
Qed.

Lemma runs_client_call tool_name parameters request_id :
  client_always_returns ->
  runs (client_call mcp_client_execute tool_name parameters request_id) 0 1
       (fun _ => True).
Proof.
  intros Hclient w.
  destruct (Hclient (length (execute_calls w)) tool_name parameters request_id)
    as (result & Hresult).
  eexists result, _. unfold client_call. rewrite Hresult.
  split_and!; [reflexivity|done|cbn; lia|cbn; rewrite length_app; cbn; lia].
Qed.

Lemma runs__execute_tool_call tool_call request_id :
  client_always_returns ->
  runs (_execute_tool_call mcp_client_execute json_loads tool_call request_id) 0 1
       (fun _ => True).
Proof.
  intros Hclient. unfold _execute_tool_call. cbv zeta.
  match goal with |- runs (match ?parsed with _ => _ end) _ _ _ => destruct parsed end.
  - by apply runs_client_call.
  - apply (runs_weaken _ 0 0 0 1 (fun _ => True) (fun _ => True));
      [by apply runs_ret|done|lia|done].
Qed.

Lemma runs_for_each {A} (xs : list A) (body : A -> M unit) :
  (forall x, runs (body x) 0 1 (fun _ => True)) ->
  runs (for_each xs body) 0 (length xs) (fun _ => True).
Proof.
  intros Hbody. induction xs as [|x rest IH]; cbn [for_each length].
  - by apply runs_ret.
  - apply (runs_weaken _ (0 + 0) (1 + length rest) _ _ (fun _ => True) (fun _ => True));
      [|done|lia|done].
    apply (runs_bind _ _ 0 1 0 (length rest) (fun _ => True)); [apply Hbody|].
    intros _ _. apply IH.
Qed.

(** One turn that requests [requested] runs [execute] once for each of them
    at most, and the loop goes round [remaining] times. *)
Lemma runs_tool_loop per_turn :
  model_always_requests_tools per_turn -> client_always_returns ->
  forall remaining iterations conversation_id tools request_id,
    runs (tool_loop utcnow llm_complete mcp_client_execute json_loads json_dumps
            max_length ttl remaining iterations conversation_id tools request_id)
         remaining (remaining * per_turn)
         (fun response => response = MAX_ITERATIONS_REACHED).
Proof.
  intros Hllm Hclient remaining.
  induction remaining as [|remaining IH]; intros iterations conversation_id tools request_id.
  - by apply runs_ret.
  - cbn [tool_loop].
    apply (runs_weaken _ (0 + (1 + (0 + (0 + remaining))))
             (0 + (0 + (0 + (per_turn + remaining * per_turn)))) _ _
             (fun response => response = MAX_ITERATIONS_REACHED)
             (fun response => response = MAX_ITERATIONS_REACHED));
      [|lia|cbn; lia|done].
    apply (runs_bind _ _ 0 0 _ _ (fun _ => True)); [apply quiet_get_messages|].
    intros messages _.
    apply (runs_bind _ _ 1 0 _ _ (requests_tools per_turn)); [by apply runs_llm_call|].
    intros llm_response (first & others & Hcalls & Hcount). rewrite Hcalls.
    apply (runs_bind _ _ 0 0 _ _ (fun _ => True)); [apply quiet_add_message|].
    intros _ _.
    apply (runs_bind _ _ 0 per_turn _ _ (fun _ => True)); [|intros _ _; apply IH].
    apply (runs_weaken _ 0 (length (first :: others)) 0 per_turn
             (fun _ => True) (fun _ => True)); [|done|exact Hcount|done].
    apply runs_for_each. intros tool_call.
    apply (runs_weaken _ (0 + (0 + 0)) (1 + (0 + 0)) _ _ (fun _ => True) (fun _ => True));
      [|done|lia|done].
    apply (runs_bind _ _ 0 1 _ _ (fun _ => True)); [by apply runs__execute_tool_call|].
    intros result _.
    apply (runs_bind _ _ 0 0 0 0 (fun _ => True)); [apply quiet_add_message|].
    intros _ _. by apply runs_ret.
Qed.

(** C4, amended. If the model answers every turn with between one and
    [per_turn] tool calls and the execution client never raises, the agent
    loop returns the fixed apology for an exhausted step budget (it returns,
    it does not raise), after exactly [max_tool_iterations] model calls and
    at most [max_tool_iterations * per_turn] calls of the client's
    [execute]: at most [max_tool_iterations] when every turn requests a
    single tool call. *)
Theorem process_with_tools_exhausts_budget (per_turn : nat) (max_tool_iterations : Z)
    (w : World) (conversation_id : string) (tools : list value) (request_id : string) :
  let after :=
    _process_with_tools utcnow llm_complete mcp_client_execute json_loads json_dumps
      max_length ttl max_tool_iterations conversation_id tools request_id w in
  model_always_requests_tools per_turn ->
  client_always_returns ->
  fst after = Returned MAX_ITERATIONS_REACHED /\
  llm_calls (snd after) = llm_calls w + Z.to_nat max_tool_iterations /\
  length (execute_calls (snd after))
  <= length (execute_calls w) + Z.to_nat max_tool_iterations * per_turn /\
  (per_turn = 1 ->
   length (execute_calls (snd after))
   <= length (execute_calls w) + Z.to_nat max_tool_iterations).
Proof.
  intros after Hllm Hclient.
  destruct (runs_tool_loop per_turn Hllm Hclient (Z.to_nat max_tool_iterations) 0
              conversation_id tools request_id w)
    as (response & w' & Hrun & -> & Hmodel & Hexecute).
  unfold after, _process_with_tools. rewrite Hrun. cbn [fst snd].
  split_and!; [done..|]. intros ->. lia.
Qed.

End AgentLoopProperties.

Section AgentLoopRuns.
Import Orchestrator.

(** Calls of one tool, and providers that ask for it on every turn: once, or
    twice. *)
Definition test_action (id : string) : LLMToolCall :=
  mkLLMToolCall id "function" "test.action" (VStr "{}").

Definition always_tool_call (k : nat) (messages : list ConversationMessage)
    (tools : option (list value)) : outcome LLMResponse :=
  Returned (Orchestrator.mkLLMResponse (Some "") (Some [test_action "call_1"])
              "tool_calls" []).

Definition always_two_tool_calls (k : nat)
    (messages : list ConversationMessage) (tools : option (list value))
  : outcome LLMResponse :=
  Returned (Orchestrator.mkLLMResponse (Some "")
              (Some [test_action "call_1"; test_action "call_2"]) "tool_calls" []).

(** A client whose [execute] succeeds with an empty object. *)
Definition execute_succeeds (k : nat) (tool_name : string) (parameters : value)
    (request_id : string) : outcome ToolResult :=
  Returned (ToolResult_ tool_name SUCCESS (Some (VDict [])) None None).

(** [json.loads] and [json.dumps] on the one document these runs exchange. *)
Definition loads_empty_object (s : string) : option value :=
  if String.eqb s "{}" then Some (VDict []) else None.

Definition dumps_empty_object (v : value) : string := "{}".

(** C4, counterexample. With a step budget of one and a model whose single
    turn requests two tool calls, the loop returns the apology after one
    model call, and [execute] has been called twice. *)
Lemma process_with_tools_execute_counterexample :
  fst (Orchestrator._process_with_tools frozen_clock always_two_tool_calls
         execute_succeeds loads_empty_object dumps_empty_object 50 3600 1 "c1" []
         "req1" (world_with [msg "user" "Do something"]))
  = Returned Orchestrator.MAX_ITERATIONS_REACHED /\
  Orchestrator.llm_calls
    (snd (Orchestrator._process_with_tools frozen_clock always_two_tool_calls
            execute_succeeds loads_empty_object dumps_empty_object 50 3600 1 "c1" []
            "req1" (world_with [msg "user" "Do something"]))) = 1 /\
  Orchestrator.execute_calls
    (snd (Orchestrator._process_with_tools frozen_clock always_two_tool_calls
            execute_succeeds loads_empty_object dumps_empty_object 50 3600 1 "c1" []
            "req1" (world_with [msg "user" "Do something"])))
  = [("test.action", VDict []); ("test.action", VDict [])] /\
  ~ (length
       (Orchestrator.execute_calls
          (snd (Orchestrator._process_with_tools frozen_clock always_two_tool_calls
                  execute_succeeds loads_empty_object dumps_empty_object 50 3600 1
                  "c1" [] "req1" (world_with [msg "user" "Do something"]))))
     <= Z.to_nat 1).
Proof. split_and!; [vm_compute; reflexivity..|vm_compute; lia]. Qed.

Lemma process_with_tools_exhausts_budget_witness :
  let w := world_with [msg "user" "Do something"] in
  let after :=
    Orchestrator._process_with_tools frozen_clock always_tool_call execute_succeeds
      loads_empty_object dumps_empty_object 50 3600 3 "c1" [] "req1" w in
  fst after = Returned Orchestrator.MAX_ITERATIONS_REACHED /\
  Orchestrator.llm_calls (snd after) = Orchestrator.llm_calls w + Z.to_nat 3 /\
  length (Orchestrator.execute_calls (snd after))
  <= length (Orchestrator.execute_calls w) + Z.to_nat 3 * 1 /\
  (1 = 1 ->
   length (Orchestrator.execute_calls (snd after))
   <= length (Orchestrator.execute_calls w) + Z.to_nat 3).
Proof.
  refine (process_with_tools_exhausts_budget frozen_clock always_tool_call
            execute_succeeds loads_empty_object dumps_empty_object 50 3600 1 3
            (world_with [msg "user" "Do something"]) "c1" [] "req1" _ _).
  - intros k messages tools. eexists. split; [reflexivity|].
    eexists _, _. split; [reflexivity|]. simpl. lia.
  - intros k tool_name parameters request_id. eexists. reflexivity.
Defined.

End AgentLoopRuns.

(** * Properties of the remaining operations *)

(** ** Dictionaries *)

Section PyDictFacts.
Context {V : Type}.
Implicit Types (d : PyDict.t V) (k : string) (v : V).

Lemma pydict_get_elem k v d : PyDict.get k d = Some v -> (k, v) ∈ d.
Proof.
  induction d as [|[k' v'] rest IH]; cbn; [done|].
  destruct (String.eqb_spec k k') as [->|Hne].
  - intros [= ->]. apply elem_of_cons. by left.
  - intros Hget. apply elem_of_cons. right. by apply IH.
Qed.

Lemma pydict_elem_keys k v d : (k, v) ∈ d -> k ∈ PyDict.keys d.
Proof. intros Hin. unfold PyDict.keys. by apply (list_elem_of_fmap_2 fst d (k, v)). Qed.

Lemma pydict_elem_get k v d : PyDict.wf d -> (k, v) ∈ d -> PyDict.get k d = Some v.
Proof.
  unfold PyDict.wf. induction d as [|[k' v'] rest IH]; cbn.
  - intros _ Hin. by apply elem_of_nil in Hin.
  - intros Hwf Hin. apply NoDup_cons in Hwf as [Hfresh Hwf].
    apply elem_of_cons in Hin as [[= -> ->]|Hin].
    + by rewrite String.eqb_refl.
    + destruct (String.eqb_spec k k') as [->|Hne]; [|by apply IH].
      destruct Hfresh. by apply (pydict_elem_keys k' v).
Qed.

Lemma pydict_contains_false k d : PyDict.contains k d = false <-> k ∉ PyDict.keys d.
Proof.
  rewrite <- PyDict.get_None_keys. unfold PyDict.contains.
  destruct (PyDict.get k d); split; done.
Qed.

Lemma pydict_elem_set k v d x :
  x ∈ PyDict.set k v d -> x = (k, v) \/ x ∈ d.
Proof.
  induction d as [|[k' v'] rest IH]; cbn.
  - intros Hin. apply list_elem_of_singleton in Hin. by left.
  - destruct (String.eqb_spec k k') as [->|Hne]; intros Hin;
      apply elem_of_cons in Hin as [->|Hin].
    + by left.
    + right. apply elem_of_cons. by right.
    + right. apply elem_of_cons. by left.
    + destruct (IH Hin) as [->|Hrest]; [by left|]. right. apply elem_of_cons. by right.
Qed.

Lemma pydict_sublist_del k d : PyDict.del k d `sublist_of` d.
Proof.
  induction d as [|[k' v'] rest IH]; cbn; [done|].
  destruct (String.eqb k k'); [by apply sublist_cons | by apply sublist_skip].
Qed.

Lemma pydict_elem_del k d x : x ∈ PyDict.del k d -> x ∈ d.
Proof. intros Hin. eapply elem_of_sublist; [exact Hin | apply pydict_sublist_del]. Qed.

Lemma pydict_wf_del k d : PyDict.wf d -> PyDict.wf (PyDict.del k d).
Proof.
  unfold PyDict.wf, PyDict.keys. intros Hwf.
  eapply sublist_NoDup; [exact Hwf|]. apply fmap_sublist, pydict_sublist_del.
Qed.

Lemma pydict_get_del_ne k k' d : k <> k' -> PyDict.get k' (PyDict.del k d) = PyDict.get k' d.
Proof.
  intros Hne. induction d as [|[k0 v0] rest IH]; cbn; [done|].
  destruct (String.eqb_spec k k0) as [->|Hne0]; cbn.
  - destruct (String.eqb_spec k' k0); congruence.
  - destruct (String.eqb_spec k' k0); done.
Qed.

Lemma pydict_get_del_eq k d : PyDict.wf d -> PyDict.get k (PyDict.del k d) = None.
Proof.
  unfold PyDict.wf. induction d as [|[k0 v0] rest IH]; cbn; [done|].
  intros Hwf. apply NoDup_cons in Hwf as [Hfresh Hwf].
  destruct (String.eqb_spec k k0) as [->|Hne]; cbn.
  - by apply PyDict.get_None_keys.
  - destruct (String.eqb_spec k k0); [done|]. by apply IH.
Qed.

Lemma pydict_wf_set_fresh k v d :
  PyDict.wf d -> k ∉ PyDict.keys d -> PyDict.wf (PyDict.set k v d).
Proof.
  unfold PyDict.wf. intros Hwf Hfresh. rewrite PyDict.keys_set_fresh by done.
  apply NoDup_app. split_and!; [done| |apply NoDup_singleton].
  intros x Hx Hk. apply list_elem_of_singleton in Hk as ->. done.
Qed.

End PyDictFacts.

(** ** Registry *)

Section RegistryOperations.
Import Registry.

(** What holds of every registry built from [ToolRegistry()] by its own
    methods: no key twice, every tool stored under its qualified name, and
    the domain of every stored tool recorded. *)
Definition consistent (self : ToolRegistry) : Prop :=
  PyDict.wf (_tools self) /\
  (forall key tool, (key, tool) ∈ _tools self -> key = qualified_name tool) /\
  (forall key tool, (key, tool) ∈ _tools self -> t_domain tool ∈ _domains self).

Lemma consistent_register self tool :
  consistent self -> consistent (snd (register self tool)).
Proof.
  intros (Hwf & Hkeys & Hdomains). unfold register.
  destruct (PyDict.contains (qualified_name tool) (_tools self)) eqn:Hc; cbn; [done|].
  apply pydict_contains_false in Hc. split_and!.
  - by apply pydict_wf_set_fresh.
  - intros key t Hin. apply pydict_elem_set in Hin as [[= -> ->]|Hin];
      [done | by apply Hkeys].
  - intros key t Hin. apply elem_of_union.
    apply pydict_elem_set in Hin as [[= -> ->]|Hin].
    + left. by apply elem_of_singleton.
    + right. by eapply Hdomains.
Qed.

Lemma consistent_unregister self tool_name :
  consistent self -> consistent (snd (unregister self tool_name)).
Proof.
  intros (Hwf & Hkeys & Hdomains). unfold unregister.
  destruct (PyDict.contains tool_name (_tools self)); cbn; [|done]. split_and!.
  - by apply pydict_wf_del.
  - intros key t Hin. apply Hkeys. by eapply pydict_elem_del.
  - intros key t Hin. eapply Hdomains. by eapply pydict_elem_del.
Qed.

Lemma consistent_register_many tools : forall self,
  consistent self -> consistent (snd (register_many self tools)).
Proof.
  induction tools as [|tool rest IH]; intros self Hself; cbn; [done|].
  pose proof (consistent_register self tool Hself) as Hnext.
  destruct (register self tool) as [[[]|e] self']; cbn in *; [by apply IH | done].
Qed.

Lemma consistent_empty : consistent empty.
Proof.
  split_and!; [apply NoDup_nil_2 | |]; intros key tool Hin; by apply elem_of_nil in Hin.
Qed.

(** X1. The registry invariant: [ToolRegistry()] and [clear] give a
    consistent registry, and [register], [register_many] and [unregister]
    keep it consistent, whether they succeed or not. *)
Theorem registry_consistent :
  consistent empty /\
  (forall self, consistent (clear self)) /\
  (forall self tool, consistent self -> consistent (snd (register self tool))) /\
  (forall self tools, consistent self -> consistent (snd (register_many self tools))) /\
  (forall self tool_name,
      consistent self -> consistent (snd (unregister self tool_name))).
Proof.
  split_and!; [apply consistent_empty | intros self; apply consistent_empty
              | apply consistent_register | | apply consistent_unregister].
  intros self tools. apply consistent_register_many.
Qed.

Lemma list_domains_elem self d : d ∈ list_domains self <-> d ∈ _domains self.
Proof.
  unfold list_domains. rewrite merge_sort_Permutation. apply elem_of_elements.
Qed.

Lemma values_elem {V} (d : PyDict.t V) v :
  v ∈ PyDict.values d <-> exists k, (k, v) ∈ d.
Proof.
  unfold PyDict.values. rewrite list_elem_of_fmap. split.
  - intros ([k v'] & -> & Hin). by exists k.
  - intros (k & Hin). by exists (k, v).
Qed.

(** X2. In a consistent registry, a tool that [get] returns for a name has
    that name as its qualified name, is among [list_tools] with deprecated
    tools included, and its domain is among [list_domains]. *)
Theorem get_returns_qualified self tool_name tool :
  consistent self ->
  get self tool_name = Some tool ->
  qualified_name tool = tool_name /\
  tool ∈ list_tools self None true /\
  t_domain tool ∈ list_domains self.
Proof.
  intros (Hwf & Hkeys & Hdomains) Hget. apply pydict_get_elem in Hget. split_and!.
  - symmetry. by apply Hkeys.
  - cbn. apply values_elem. by exists tool_name.
  - apply list_domains_elem. by eapply Hdomains.
Qed.

Lemma get_returns_qualified_witness :
  qualified_name hr_get_employee = "hr.get_employee" /\
  hr_get_employee ∈ list_tools hr_registry None true /\
  "hr" ∈ list_domains hr_registry.
Proof.
  apply (get_returns_qualified hr_registry "hr.get_employee" hr_get_employee).
  - apply (consistent_register empty hr_get_employee), consistent_empty.
  - reflexivity.
Defined.

Lemma register_returned self tool :
  fst (register self tool) = Returned tt <-> get self (qualified_name tool) = None.
Proof.
  unfold register, get, PyDict.contains.
  destruct (PyDict.get (qualified_name tool) (_tools self)); cbn; split; done.
Qed.

Lemma register_raised self tool :
  is_Some (get self (qualified_name tool)) ->
  register self tool
  = (Raised (ValueError ("Tool '" +:+ qualified_name tool +:+ "' is already registered")),
     self).
Proof.
  unfold register, get, PyDict.contains. intros [found Hfound]. by rewrite Hfound.
Qed.

Lemma register_get_ne self tool other :
  other <> qualified_name tool ->
  get (snd (register self tool)) other = get self other.
Proof.
  intros Hne. unfold register, get.
  destruct (PyDict.contains (qualified_name tool) (_tools self)); cbn; [done|].
  by apply PyDict.get_set_ne.
Qed.

Lemma register_get_eq self tool :
  fst (register self tool) = Returned tt ->
  get (snd (register self tool)) (qualified_name tool) = Some tool.
Proof.
  unfold register, get.
  destruct (PyDict.contains (qualified_name tool) (_tools self)); cbn; [done|].
  intros _. apply PyDict.get_set_eq.
Qed.

(** X3. [register] touches one name only: under every other name [get]
    returns what it returned before, whether the call succeeds or raises;
    and a successful call adds the domain of the tool to [list_domains],
    keeping the domains listed before. *)
Theorem register_frame self tool :
  (forall other, other <> qualified_name tool ->
                 get (snd (register self tool)) other = get self other) /\
  (fst (register self tool) = Returned tt ->
   forall d, d ∈ list_domains (snd (register self tool))
             <-> d = t_domain tool \/ d ∈ list_domains self).
Proof.
  split; [intros other; apply register_get_ne|].
  intros Hok d. rewrite !list_domains_elem. unfold register in *.
  destruct (PyDict.contains (qualified_name tool) (_tools self)); cbn in *; [done|].
  rewrite elem_of_union, elem_of_singleton. done.
Qed.

(** X4. On a registry without duplicate keys, [unregister] returns [True]
    exactly when the name was registered; afterwards [get] finds nothing
    under the name and is unchanged under every other name; the domain of the
    removed tool stays in [list_domains], also when it was its last tool. *)
Theorem unregister_spec self tool_name :
  PyDict.wf (_tools self) ->
  (fst (unregister self tool_name) = true <-> is_Some (get self tool_name)) /\
  get (snd (unregister self tool_name)) tool_name = None /\
  (forall other, other <> tool_name ->
                 get (snd (unregister self tool_name)) other = get self other) /\
  list_domains (snd (unregister self tool_name)) = list_domains self.
Proof.
  intros Hwf. unfold unregister, get, PyDict.contains.
  destruct (PyDict.get tool_name (_tools self)) as [found|] eqn:Hget; cbn.
  - split_and!; [done | by apply pydict_get_del_eq | | done].
    intros other Hne. by apply pydict_get_del_ne.
  - split_and!; [|done..]. split; [done | by intros [? ?]].
Qed.

Lemma unregister_spec_witness :
  fst (unregister hr_registry "hr.get_employee") = true /\
  get (snd (unregister hr_registry "hr.get_employee")) "hr.get_employee" = None /\
  list_domains (snd (unregister hr_registry "hr.get_employee")) = ["hr"].
Proof.
  assert (Hwf : PyDict.wf (_tools hr_registry)).
  { unfold PyDict.wf. apply (bool_decide_unpack _). reflexivity. }
  pose proof (unregister_spec hr_registry "hr.get_employee" Hwf)
    as (Hfound & Hgone & _ & Hdomains).
  split_and!.
  - apply Hfound. eexists. reflexivity.
  - exact Hgone.
  - rewrite Hdomains. reflexivity.
Defined.

End RegistryOperations.

Section RegistryBatch.
Import Registry.

Lemma register_many_app pre : forall self rest,
  register_many self (pre ++ rest)
  = match register_many self pre with
    | (Returned _, self') => register_many self' rest
    | (Raised e, self') => (Raised e, self')
    end.
Proof.
  induction pre as [|tool pre IH]; intros self rest; cbn; [done|].
  destruct (register self tool) as [[[]|e] self']; [apply IH | done].
Qed.

Lemma register_many_get_ne tools : forall self other,
  other ∉ map qualified_name tools ->
  get (snd (register_many self tools)) other = get self other.
Proof.
  induction tools as [|tool rest IH]; intros self other Hother; cbn; [done|].
  cbn in Hother. apply not_elem_of_cons in Hother as [Hne Hrest].
  pose proof (register_get_ne self tool other Hne) as Hstep.
  destruct (register self tool) as [[[]|e] self']; cbn in *; [|done].
  rewrite IH by done. exact Hstep.
Qed.

Lemma register_many_returned tools : forall self,
  fst (register_many self tools) = Returned tt <->
  NoDup (map qualified_name tools) /\
  forall tool, tool ∈ tools -> get self (qualified_name tool) = None.
Proof.
  induction tools as [|tool rest IH]; intros self; cbn.
  - split; [|done]. intros _. split; [apply NoDup_nil_2|].
    intros tool Hin. by apply elem_of_nil in Hin.
  - pose proof (register_returned self tool) as Hfirst.
    pose proof (register_get_eq self tool) as Hstored.
    pose proof (fun other => register_get_ne self tool other) as Hothers.
    destruct (register self tool) as [[[]|e] self']; cbn in *.
    + rewrite IH, NoDup_cons. split.
      * intros [Hnodup Hfresh]. split_and!; [|done|].
        -- intros Hin. apply list_elem_of_fmap in Hin as (other & Heq & Hin).
           specialize (Hfresh other Hin). rewrite <- Heq in Hfresh.
           rewrite Hstored in Hfresh by done. done.
        -- intros other Hin. apply elem_of_cons in Hin as [->|Hin]; [by apply Hfirst|].
           rewrite <- (Hothers (qualified_name other)); [by apply Hfresh|].
           intros Heq. specialize (Hfresh other Hin). rewrite Heq in Hfresh.
           rewrite Hstored in Hfresh by done. done.
      * intros [[Hnew Hnodup] Hfresh]. split; [done|].
        intros other Hin. rewrite Hothers.
        -- apply Hfresh, elem_of_cons. by right.
        -- intros Heq. apply Hnew. rewrite <- Heq.
           by apply (list_elem_of_fmap_2 qualified_name).
    + split; [done|]. intros [_ Hfresh].
      assert (Hnone : get self (qualified_name tool) = None)
        by (apply Hfresh, elem_of_cons; by left).
      apply Hfirst in Hnone. done.
Qed.

Lemma register_many_get_eq tools : forall self tool,
  fst (register_many self tools) = Returned tt ->
  tool ∈ tools ->
  get (snd (register_many self tools)) (qualified_name tool) = Some tool.
Proof.
  induction tools as [|first rest IH]; intros self tool Hok Hin.
  - by apply elem_of_nil in Hin.
  - pose proof (proj1 (register_many_returned (first :: rest) self) Hok)
      as [Hnodup _].
    cbn in Hnodup. apply NoDup_cons in Hnodup as [Hnew _].
    cbn in Hok |- *.
    pose proof (register_get_eq self first) as Hstored.
    destruct (register self first) as [[[]|e] self']; cbn in *; [|done].
    apply elem_of_cons in Hin as [->|Hin]; [|by apply IH].
    rewrite register_many_get_ne by done. by apply Hstored.
Qed.

Definition hr_list_employees : ToolDefinition :=
  mkToolDefinition "list_employees" "hr" "List employees" "1.0.0" [] [] READ
    default_Permission [] [] false.

(** X5. [register_many] returns (does not raise) exactly when the qualified
    names of the tools are pairwise different and none is registered yet;
    afterwards [get] returns each of the tools under its qualified name, and
    what it returned before under every name that is not one of theirs. *)
Theorem register_many_spec self tools :
  (fst (register_many self tools) = Returned tt <->
   NoDup (map qualified_name tools) /\
   forall tool, tool ∈ tools -> get self (qualified_name tool) = None) /\
  (fst (register_many self tools) = Returned tt ->
   forall tool, tool ∈ tools ->
                get (snd (register_many self tools)) (qualified_name tool) = Some tool) /\
  (forall other, other ∉ map qualified_name tools ->
                 get (snd (register_many self tools)) other = get self other).
Proof.
  split_and!.
  - apply register_many_returned.
  - intros Hok tool. by apply register_many_get_eq.
  - apply register_many_get_ne.
Qed.

(** X6. [register_many] is not atomic: when the tools before a duplicate
    register without error, the call raises the duplicate-tool error of the
    first tool whose qualified name is taken, and leaves the registry as the
    tools before it made it; the tools after it are not registered. *)
Theorem register_many_stops_at_duplicate self pre dup post :
  fst (register_many self pre) = Returned tt ->
  is_Some (get (snd (register_many self pre)) (qualified_name dup)) ->
  register_many self (pre ++ dup :: post)
  = (Raised (ValueError ("Tool '" +:+ qualified_name dup +:+ "' is already registered")),
     snd (register_many self pre)).
Proof.
  intros Hpre Hdup. rewrite register_many_app.
  destruct (register_many self pre) as [[[]|e] self']; cbn in *; [|done].
  by rewrite register_raised.
Qed.

Lemma register_many_stops_at_duplicate_witness :
  register_many empty [hr_get_employee; hr_get_employee; hr_list_employees]
  = (Raised (ValueError "Tool 'hr.get_employee' is already registered"), hr_registry) /\
  get hr_registry "hr.list_employees" = None.
Proof.
  split; [|reflexivity].
  apply (register_many_stops_at_duplicate empty [hr_get_employee] hr_get_employee
           [hr_list_employees]).
  - reflexivity.
  - eexists. reflexivity.
Defined.

(** The number of registered tools of a domain. *)
Definition tools_of_domain (self : ToolRegistry) (d : string) : nat :=
  length (List.filter (fun tool => String.eqb (t_domain tool) d)
            (PyDict.values (_tools self))).

Lemma count_fold (tools : list ToolDefinition) : forall (counts : PyDict.t Z) d,
  PyDict.get d
    (fold_left
       (fun counts tool =>
          PyDict.set (t_domain tool)
            (default 0%Z (PyDict.get (t_domain tool) counts) + 1)%Z counts)
       tools counts)
  = match length (List.filter (fun tool => String.eqb (t_domain tool) d) tools) with
    | O => PyDict.get d counts
    | S n => Some (default 0%Z (PyDict.get d counts) + Z.of_nat (S n))%Z
    end.
Proof.
  induction tools as [|tool rest IH]; intros counts d; cbn [fold_left List.filter];
    [done|].
  rewrite IH. destruct (String.eqb_spec (t_domain tool) d) as [->|Hne].
  - rewrite PyDict.get_set_eq. cbn [length default].
    destruct (length _); f_equal; unfold id; lia.
  - rewrite PyDict.get_set_ne by done. done.
Qed.

(** X7. [get_tool_count] has an entry for a domain exactly when a registered
    tool has that domain, and the entry is the number of registered tools of
    the domain (deprecated ones included). *)
Theorem get_tool_count_spec self d :
  PyDict.get d (get_tool_count self)
  = match tools_of_domain self d with
    | O => None
    | S n => Some (Z.of_nat (S n))
    end.
Proof.
  unfold get_tool_count, tools_of_domain. rewrite count_fold. cbn [PyDict.get default].
  destruct (length _); [done|]. f_equal.
Qed.

End RegistryBatch.

Section RegistryListings.
Import Registry.

Lemma string_compare_trans a : forall b c,
  String.compare a b <> Gt -> String.compare b c <> Gt -> String.compare a c <> Gt.
Proof.
  induction a as [|x a IH]; intros [|y b] [|z c]; cbn; try done.
  unfold Ascii.compare.
  destruct (N.compare_spec (N_of_ascii x) (N_of_ascii y)),
    (N.compare_spec (N_of_ascii y) (N_of_ascii z)),
    (N.compare_spec (N_of_ascii x) (N_of_ascii z));
    try done; try lia.
  apply IH.
Qed.

#[local] Instance str_le_trans : Transitive str_le.
Proof.
  intros a b c. unfold str_le, String.leb.
  pose proof (string_compare_trans a b c) as Htrans.
  destruct (String.compare a b), (String.compare b c), (String.compare a c);
    try done; intros _ _; exfalso; by apply Htrans.
Qed.

#[local] Instance str_le_total : Total str_le.
Proof. intros a b. apply String.leb_total. Qed.

(** X8. [list_domains] lists exactly the recorded domains, each once, in
    ascending order of [str]; in a consistent registry the domain of every
    registered tool is among them. *)
Theorem list_domains_sorted self :
  StronglySorted str_le (list_domains self) /\
  NoDup (list_domains self) /\
  (forall d, d ∈ list_domains self <-> d ∈ _domains self) /\
  (consistent self ->
   forall tool, tool ∈ list_tools self None true -> t_domain tool ∈ list_domains self).
Proof.
  split_and!.
  - apply StronglySorted_merge_sort; apply _.
  - unfold list_domains. rewrite merge_sort_Permutation. apply NoDup_elements.
  - apply list_domains_elem.
  - intros (_ & _ & Hdomains) tool Hin. cbn in Hin.
    apply values_elem in Hin as (key & Hin).
    apply list_domains_elem. by eapply Hdomains.
Qed.

Lemma list_filter_sublist {A} (f : A -> bool) (l : list A) : List.filter f l `sublist_of` l.
Proof.
  induction l as [|x l IH]; cbn; [done|].
  destruct (f x); [by apply sublist_skip | by apply sublist_cons].
Qed.

Lemma tools_for_llm_sublist self domains user_roles :
  tools_for_llm self domains user_roles
  `sublist_of` List.filter (fun t => negb (t_deprecated t)) (PyDict.values (_tools self)).
Proof.
  unfold tools_for_llm, list_tools. cbn [negb].
  assert (Hdomains :
    match domains with
    | Some ds =>
        if truthy_list ds
        then List.filter (fun t => py_in (t_domain t) ds)
               (List.filter (fun t => negb (t_deprecated t)) (PyDict.values (_tools self)))
        else List.filter (fun t => negb (t_deprecated t)) (PyDict.values (_tools self))
    | None => List.filter (fun t => negb (t_deprecated t)) (PyDict.values (_tools self))
    end `sublist_of`
    List.filter (fun t => negb (t_deprecated t)) (PyDict.values (_tools self))).
  { destruct domains as [ds|]; [|done].
    destruct (truthy_list ds); [apply list_filter_sublist | done]. }
  destruct user_roles as [roles|]; [|exact Hdomains].
  etrans; [apply list_filter_sublist | exact Hdomains].
Qed.

Lemma consistent_names self :
  consistent self ->
  map qualified_name (PyDict.values (_tools self)) = PyDict.keys (_tools self).
Proof.
  intros (_ & Hkeys & _). unfold PyDict.values, PyDict.keys.
  induction (_tools self) as [|[key tool] rest IH]; cbn; [done|].
  rewrite IH.
  - f_equal. symmetry. apply Hkeys, elem_of_cons. by left.
  - intros k t Hin. apply Hkeys, elem_of_cons. by right.
Qed.

Lemma function_name_llm_format tool :
  Orchestrator.function_name (llm_format tool) = Some (VStr (qualified_name tool)).
Proof. reflexivity. Qed.

(** X9. In a consistent registry the listing for the model names no function
    twice, and every function name in it is the qualified name of a
    registered tool that is not deprecated, under which [get] finds that
    tool. The name is read as the gateway reads it,
    [tool.get("function", {}).get("name", "")]. *)
Theorem get_tools_for_llm_names self domains user_roles :
  consistent self ->
  NoDup (map Orchestrator.function_name (get_tools_for_llm self domains user_roles)) /\
  forall descriptor,
    descriptor ∈ get_tools_for_llm self domains user_roles ->
    exists tool,
      descriptor = llm_format tool /\
      Orchestrator.function_name descriptor = Some (VStr (qualified_name tool)) /\
      get self (qualified_name tool) = Some tool /\
      t_deprecated tool = false.
Proof.
  intros Hself.
  pose proof (tools_for_llm_sublist self domains user_roles) as Hsub.
  pose proof (list_filter_sublist (fun t => negb (t_deprecated t))
                (PyDict.values (_tools self))) as Hall.
  destruct Hself as (Hwf & Hkeys & Hdomains).
  unfold get_tools_for_llm. split.
  - rewrite map_map.
    rewrite (map_ext _ (fun tool => Some (VStr (qualified_name tool))))
      by (intros tool; apply function_name_llm_format).
    rewrite <- (map_map qualified_name (fun name => Some (VStr name))).
    assert (Hinj : Inj eq eq (fun name : string => Some (VStr name)))
      by (intros x y [= ->]; done).
    apply (NoDup_fmap_2 (fun name => Some (VStr name))).
    eapply sublist_NoDup; [|apply (fmap_sublist qualified_name); etrans; done].
    change (NoDup (map qualified_name (PyDict.values (_tools self)))).
    rewrite consistent_names by done. exact Hwf.
  - intros descriptor Hin. apply list_elem_of_fmap in Hin as (tool & -> & Hin).
    exists tool. split_and!; [done | done | |].
    + assert (Hvalue : tool ∈ PyDict.values (_tools self)).
      { eapply elem_of_sublist; [exact Hin | etrans; done]. }
      apply values_elem in Hvalue as (key & Hvalue).
      rewrite <- (Hkeys key tool Hvalue). by apply pydict_elem_get.
    + assert (Hkept : tool ∈ List.filter (fun t => negb (t_deprecated t))
                               (PyDict.values (_tools self))).
      { eapply elem_of_sublist; [exact Hin | done]. }
      apply list_elem_of_In, filter_In in Hkept as [_ Hkept].
      by apply negb_true_iff in Hkept.
Qed.

Lemma get_tools_for_llm_names_witness :
  NoDup (map Orchestrator.function_name (get_tools_for_llm hr_registry None (Some ["hr"]))).
Proof.
  apply (get_tools_for_llm_names hr_registry None (Some ["hr"])).
  apply (consistent_register empty hr_get_employee), consistent_empty.
Defined.

End RegistryListings.

(** ** Schema validation *)

Section SchemaProperties.
Import Schema.

(** X10. Whatever the validator library reports, when [validate_schema]
    returns, its verdict and its messages agree: the verdict is [True] exactly
    when there is no message, and a verdict [False] comes with one message per
    error, at least one. An empty schema accepts every value without the
    validator being consulted. *)
Theorem validate_schema_verdict iter_errors data schema verdict messages :
  validate_schema iter_errors data schema = Returned (verdict, messages) ->
  (verdict = true <-> messages = []) /\
  (verdict = false ->
   exists errors,
     iter_errors schema data = Returned errors /\
     errors <> [] /\
     messages = map error_message errors) /\
  (forall other, validate_schema iter_errors other [] = Returned (true, [])).
Proof.
  intros Hrun. split_and!; [| |done]; unfold validate_schema in Hrun;
    destruct schema as [|item schema]; cbn in Hrun; try (injection Hrun as <- <-; done);
    destruct (iter_errors (item :: schema) data) as [[|e errors]|]; cbn in Hrun;
    try done; injection Hrun as <- <-; try done.
  intros _. by eexists.
Qed.

Definition required_schema : PyDict.t value :=
  [("type", VStr "object"); ("required", VList [VStr "name"])].

Definition reports_item (schema : PyDict.t value) (data : value)
  : outcome (list ValidationError) :=
  Returned [mkValidationError [Key "items"; Index 0] "5 is not of type 'string'"].

Lemma validate_schema_verdict_witness :
  validate_schema reports_item (VDict []) required_schema
  = Returned (false, ["items.0: 5 is not of type 'string'"]) /\
  (false = true <-> ["items.0: 5 is not of type 'string'"] = []).
Proof.
  split; [reflexivity|].
  apply (validate_schema_verdict reports_item (VDict []) required_schema).
  reflexivity.
Defined.

End SchemaProperties.

(** ** Authorization, for every level *)

Section AuthorizationProperties.
Import Auth.

(** X11. [authorize_request] allows exactly: every public tool, whatever
    roles and scopes it lists; and every other tool for which the user has
    role [system] if the level is system, role [admin] if the level is admin,
    one of the required roles if there are any, and one of the required
    scopes if there are any. The level [user] by itself asks for nothing, and
    the roles [admin] and [system] do not stand in for each other. *)
Theorem authorize_request_allows tool user context :
  fst (authorize_request tool user context) = true <->
  p_level (t_permissions tool) = PUBLIC \/
  ((p_level (t_permissions tool) = SYSTEM -> "system" ∈ u_roles user) /\
   (p_level (t_permissions tool) = ADMIN -> "admin" ∈ u_roles user) /\
   (p_roles (t_permissions tool) = [] \/
    exists role, role ∈ p_roles (t_permissions tool) /\ role ∈ u_roles user) /\
   (p_scopes (t_permissions tool) = [] \/
    exists scope, scope ∈ p_scopes (t_permissions tool) /\ scope ∈ u_permissions user)).
Proof.
  rewrite <- !any_in_spec.
  pose proof (truthy_list_nonempty (p_roles (t_permissions tool))) as Hroles.
  pose proof (truthy_list_nonempty (p_scopes (t_permissions tool))) as Hscopes.
  unfold authorize_request, py_in.
  destruct (bool_decide_reflect ("system" ∈ u_roles user)) as [Hsystem|Hsystem];
    destruct (bool_decide_reflect ("admin" ∈ u_roles user)) as [Hadmin|Hadmin];
    destruct (p_level (t_permissions tool)); repeat case_decide; try done;
    destruct (any_in (p_roles (t_permissions tool)) (u_roles user));
    destruct (any_in (p_scopes (t_permissions tool)) (u_permissions user));
    destruct (truthy_list (p_roles (t_permissions tool)));
    destruct (truthy_list (p_scopes (t_permissions tool)));
    cbn;
    destruct (decide (p_roles (t_permissions tool) = []));
    destruct (decide (p_scopes (t_permissions tool) = []));
    intuition congruence.
Qed.

(** [authorize_request] gives a reason exactly when it denies, and the
    reason of a denial is one of four: the system message, the admin message,
    the required roles joined by a comma, or the required scopes joined by a
    comma. *)
Lemma authorize_request_reason tool user context :
  (fst (authorize_request tool user context) = true <->
   snd (authorize_request tool user context) = None) /\
  (fst (authorize_request tool user context) = false ->
   exists g, snd (authorize_request tool user context) = Some (gate_reason g tool) /\
             gate_denies g tool user = true).
Proof.
  rewrite authorize_request_by_gates. unfold authorize_by_gates.
  case_bool_decide; [split; done|].
  destruct (List.find (fun g => gate_denies g tool user) gate_order) as [g|] eqn:Hfind;
    cbn [fst snd].
  - split; [split; done|]. intros _. exists g. split; [done|].
    by apply find_some in Hfind as [_ Hdenies].
  - split; done.
Qed.

End AuthorizationProperties.

(** ** Audit log: buffering and queries *)

Section AuditLogProperties.
Import Audit.
Variable model_dump_json : AuditEntry -> string.
Variable str_lower : string -> string.

(** Every line the logger is answerable for: those in the file, then those
    of the entries still buffered. *)
Definition recorded (self : AuditLogger) : list string :=
  log_file self ++ map (line_of model_dump_json) (_buffer self).

(** X12. A disabled logger ignores [log]. An enabled one accounts for the
    new entry exactly once and after all earlier ones when the file system
    accepts the writes: the lines in the file followed by the lines still
    buffered grow by the line of the new entry, whether or not the call
    flushes. When no flush happens or the flush fails, the new entry is the
    last of the buffer. *)
Theorem log_records_once env self tool call result :
  let entry := create_entry str_lower env tool call result in
  let after := log model_dump_json str_lower env self tool call result in
  (enabled self = false -> after = self) /\
  (enabled self = true -> env_io env = IoOk ->
   recorded after = recorded self ++ [line_of model_dump_json entry]) /\
  (enabled self = true ->
   env_io env <> IoOk \/ (Z.of_nat (length (_buffer self)) + 1 < buffer_size self)%Z ->
   _buffer after = _buffer self ++ [entry]).
Proof.
  intros entry after. unfold after, log. fold entry. split_and!.
  - intros ->. done.
  - intros -> ->. cbn [negb]. unfold recorded.
    destruct (_ >=? _)%Z.
    + rewrite _flush_ok. cbn. rewrite app_nil_r, map_app, app_assoc. done.
    + cbn. by rewrite map_app, app_assoc.
  - intros -> Hpending. cbn [negb].
    destruct (Z.geb_spec (Z.of_nat (length (_buffer (set_buffer (_buffer self ++ [entry]) self))))
                (buffer_size (set_buffer (_buffer self ++ [entry]) self))) as [Hfull|Hroom];
      [|done].
    destruct Hpending as [Hio|Hroom].
    + destruct (env_io env) as [|written msg]; [done|]. by rewrite _flush_error.
    + cbn in Hfull. rewrite length_app in Hfull. cbn in Hfull. lia.
Qed.

(** X13. While the file system accepts the writes, the buffer stays below
    [buffer_size]: if it holds fewer than [max(1, buffer_size)] entries
    before [log], it does so afterwards. *)
Theorem log_keeps_buffer_small env self tool call result :
  env_io env = IoOk ->
  (Z.of_nat (length (_buffer self)) < Z.max 1 (buffer_size self))%Z ->
  let after := log model_dump_json str_lower env self tool call result in
  (Z.of_nat (length (_buffer after)) < Z.max 1 (buffer_size after))%Z /\
  buffer_size after = buffer_size self.
Proof.
  intros Hio Hsmall after. unfold after, log. rewrite Hio.
  destruct (enabled self); cbn [negb]; [|done].
  destruct (Z.geb_spec
              (Z.of_nat (length (_buffer (set_buffer
                 (_buffer self ++ [create_entry str_lower env tool call result]) self))))
              (buffer_size (set_buffer
                 (_buffer self ++ [create_entry str_lower env tool call result]) self)))
    as [Hfull|Hroom].
  - rewrite _flush_ok. cbn. lia.
  - cbn in *. lia.
Qed.

End AuditLogProperties.

Definition denied_result : ToolResult :=
  ToolResult_ "devops.restart_cluster" UNAUTHORIZED None (Some "Admin access required")
    (Some "UNAUTHORIZED").

Lemma log_keeps_buffer_small_witness :
  (Z.of_nat (length (Audit._buffer
     (Audit.log sample_dump lower_with_kelvin (Audit.mkLogEnv "audit-1" 0 Audit.IoOk)
        pending_logger restart_cluster restart_call denied_result))) < Z.max 1 100)%Z.
Proof.
  apply (log_keeps_buffer_small sample_dump lower_with_kelvin
           (Audit.mkLogEnv "audit-1" 0 Audit.IoOk)
           pending_logger restart_cluster restart_call denied_result).
  - reflexivity.
  - cbn. lia.
Defined.

Section AuditRetryProperties.
Import Audit.
Variable model_dump_json : AuditEntry -> string.

(** X14. Retrying after a failed flush writes the whole buffer again: if the
    error came after [written] entries had reached the file, a following
    successful flush leaves the old content, the lines of those first
    [written] entries, and then the lines of all pending entries; entries
    written before the error are in the file twice. *)
Theorem flush_retry_rewrites self written msg :
  let after :=
    flush model_dump_json IoOk (flush model_dump_json (IoError written msg) self) in
  log_file after
  = log_file self
    ++ map (line_of model_dump_json) (take written (_buffer self))
    ++ map (line_of model_dump_json) (_buffer self) /\
  _buffer after = [].
Proof.
  cbv zeta. unfold flush. rewrite _flush_ok, _flush_error. cbn.
  by rewrite app_assoc.
Qed.

End AuditRetryProperties.

Section AuditQueryProperties.
Import Audit.
Variable parse_line : string -> line_outcome.
Variable user_id tool_name domain : option string.
Variable status : option ToolResultStatus.
Variable start_time end_time : option Z.
Variable limit : Z.

Abbreviation run_query_lines :=
  (query_lines parse_line user_id tool_name domain status start_time end_time limit).
Abbreviation is_filtered_out :=
  (filtered_out user_id tool_name domain status start_time end_time).

(** What the filters of a query ask of an entry. *)
Definition passes (entry : AuditEntry) : Prop :=
  (forall u, user_id = Some u -> u <> "" -> a_user_id entry = u) /\
  (forall t, tool_name = Some t -> t <> "" -> a_tool_name entry = t) /\
  (forall d, domain = Some d -> d <> "" -> a_domain entry = d) /\
  (forall s, status = Some s -> a_status entry = s) /\
  (forall t, start_time = Some t -> (t <= a_timestamp entry)%Z) /\
  (forall t, end_time = Some t -> (a_timestamp entry <= t)%Z).

Lemma differs_false x field :
  differs x field = false <-> forall y, x = Some y -> y <> "" -> field = y.
Proof.
  unfold differs. destruct x as [x|]; [|split; [intros _ y; done | done]].
  destruct x as [|c x]; cbn.
  - split; [|done]. intros _ y [= <-]. done.
  - rewrite negb_false_iff, String.eqb_eq. split.
    + intros -> y [= <-] _. done.
    + intros Hy. by apply Hy.
Qed.

Lemma status_eqb_eq a b : status_eqb a b = true <-> a = b.
Proof. unfold status_eqb. destruct a, b; cbn; split; done. Qed.

Lemma filtered_out_false entry : is_filtered_out entry = false <-> passes entry.
Proof.
  unfold filtered_out, passes. rewrite !orb_false_iff, !differs_false.
  assert (Hstatus :
    match status with
    | Some s => truthy_str (status_value s) && negb (status_eqb (a_status entry) s)
    | None => false
    end = false <-> forall s, status = Some s -> a_status entry = s).
  { destruct status as [s|]; [|split; [intros _ s'; done | done]].
    assert (Htruthy : truthy_str (status_value s) = true) by (by destruct s).
    rewrite Htruthy. cbn. rewrite negb_false_iff, status_eqb_eq. split.
    - intros -> s' [= <-]. done.
    - intros Hs. by apply Hs. }
  assert (Hstart :
    match start_time with
    | Some t => (a_timestamp entry <? t)%Z
    | None => false
    end = false <-> forall t, start_time = Some t -> (t <= a_timestamp entry)%Z).
  { destruct start_time as [t|]; [|split; [intros _ t'; done | done]].
    rewrite Z.ltb_ge. split; [intros Hle t' [= <-]; done | intros Ht; by apply Ht]. }
  assert (Hend :
    match end_time with
    | Some t => (a_timestamp entry >? t)%Z
    | None => false
    end = false <-> forall t, end_time = Some t -> (a_timestamp entry <= t)%Z).
  { destruct end_time as [t|]; [|split; [intros _ t'; done | done]].
    rewrite Z.gtb_ltb, Z.ltb_ge.
    split; [intros Hle t' [= <-]; done | intros Ht; by apply Ht]. }
  rewrite Hstatus, Hstart, Hend. tauto.
Qed.

Lemma query_lines_spec lines : forall results,
  exists added,
    run_query_lines lines results = results ++ added /\
    Forall (fun entry =>
              is_filtered_out entry = false /\
              exists line, line ∈ lines /\ parse_line line = Parsed entry) added /\
    length (run_query_lines lines results) <= Nat.max (length results) (Z.to_nat limit).
Proof.
  induction lines as [|line rest IH]; intros results; cbn [query_lines].
  - exists []. rewrite app_nil_r. split_and!; [done | constructor | lia].
  - destruct (Z.geb_spec (Z.of_nat (length results)) limit) as [Hfull|Hroom].
    { exists []. rewrite app_nil_r. split_and!; [done | constructor | lia]. }
    assert (Hweaken : forall added,
      Forall (fun entry =>
                is_filtered_out entry = false /\
                exists l, l ∈ rest /\ parse_line l = Parsed entry) added ->
      Forall (fun entry =>
                is_filtered_out entry = false /\
                exists l, l ∈ line :: rest /\ parse_line l = Parsed entry) added).
    { intros added Hrest. eapply Forall_impl; [exact Hrest|].
      intros entry [Hpass (l & Hl & Hparse)].
      split; [done|]. exists l. split; [|done]. apply elem_of_cons. by right. }
    destruct (parse_line line) as [entry| |e] eqn:Hparse.
    + destruct (is_filtered_out entry) eqn:Hpass.
      * destruct (IH results) as (added & -> & Hadded & Hlen).
        exists added. split_and!; [done | by apply Hweaken | done].
      * destruct (IH (results ++ [entry])) as (added & Hrun & Hadded & Hlen).
        exists (entry :: added). rewrite Hrun in Hlen |- *.
        rewrite <- app_assoc. split_and!; [done| |].
        -- constructor; [|by apply Hweaken]. split; [done|].
           exists line. split; [|done]. apply elem_of_cons. by left.
        -- rewrite !length_app in *. cbn in *. lia.
    + destruct (IH results) as (added & -> & Hadded & Hlen).
      exists added. split_and!; [done | by apply Hweaken | done].
    + exists []. rewrite app_nil_r. split_and!; [done | constructor | lia].
Qed.

(** X15. Every entry that [query] returns was parsed from a line of the
    file and passes each filter that was given (an empty string filters
    nothing); the result holds at most [limit] entries, none when [limit] is
    zero or negative; lines that do not parse are skipped. *)
Theorem query_sound io self :
  let results :=
    query parse_line user_id tool_name domain status start_time end_time limit io self in
  (forall entry, entry ∈ results ->
     passes entry /\
     exists line, line ∈ log_file self /\ parse_line line = Parsed entry) /\
  (Z.of_nat (length results) <= Z.max 0 limit)%Z.
Proof.
  intros results. unfold results, query.
  destruct (log_file self) as [|first lines] eqn:Hfile.
  { split; [|cbn; lia]. intros entry Hin. by apply elem_of_nil in Hin. }
  assert (Hread : forall read, (forall l, l ∈ read -> l ∈ first :: lines) ->
    (forall entry, entry ∈ run_query_lines read [] ->
       passes entry /\
       exists line, line ∈ first :: lines /\ parse_line line = Parsed entry) /\
    (Z.of_nat (length (run_query_lines read [])) <= Z.max 0 limit)%Z).
  { intros read Hsub. destruct (query_lines_spec read []) as (added & Hrun & Hadded & Hlen).
    split; [|cbn in Hlen; lia].
    intros entry Hin. rewrite Hrun in Hin. cbn in Hin.
    rewrite Forall_forall in Hadded.
    destruct (Hadded entry Hin) as [Hpass (line & Hline & Hparse)].
    split; [by apply filtered_out_false|]. exists line. split; [by apply Hsub | done]. }
  destruct io as [|n msg]; apply Hread; [done|].
  intros l Hl. eapply elem_of_sublist; [exact Hl | apply sublist_take].
Qed.

End AuditQueryProperties.

Section AuditRoundTrip.
Import Audit.
Variable model_dump_json : AuditEntry -> string.
Variable parse_line : string -> line_outcome.

Lemma query_lines_all limit (entries : list AuditEntry) : forall results,
  (forall entry, entry ∈ entries ->
                 parse_line (line_of model_dump_json entry) = Parsed entry) ->
  (Z.of_nat (length results + length entries) <= limit)%Z ->
  query_lines parse_line None None None None None None limit
    (map (line_of model_dump_json) entries) results
  = results ++ entries.
Proof.
  induction entries as [|entry rest IH]; intros results Hparse Hlimit; cbn.
  - by rewrite app_nil_r.
  - destruct (Z.geb_spec (Z.of_nat (length results)) limit) as [Hfull|Hroom];
      [cbn in Hlimit; lia|].
    rewrite Hparse by (apply elem_of_cons; by left). cbn.
    rewrite IH.
    + by rewrite <- app_assoc.
    + intros other Hin. apply Hparse, elem_of_cons. by right.
    + rewrite length_app. cbn in *. lia.
Qed.

(** X16. Round trip through the file: if the file holds the lines that the
    logger wrote for the entries [written], and the parser reads back the line
    of each entry concerned, then after a successful [flush] a [query]
    without filters, with a [limit] that is large enough, returns the entries
    written earlier followed by those that were buffered, in their order. *)
Theorem flush_then_query self written limit :
  log_file self = map (line_of model_dump_json) written ->
  (forall entry, entry ∈ written ++ _buffer self ->
                 parse_line (line_of model_dump_json entry) = Parsed entry) ->
  (Z.of_nat (length written + length (_buffer self)) <= limit)%Z ->
  query parse_line None None None None None None limit IoOk
    (flush model_dump_json IoOk self)
  = written ++ _buffer self.
Proof.
  intros Hfile Hparse Hlimit. unfold flush. rewrite _flush_ok. unfold query.
  cbn [log_file]. rewrite Hfile, <- map_app.
  assert (Hall :
    query_lines parse_line None None None None None None limit
      (map (line_of model_dump_json) (written ++ _buffer self)) []
    = written ++ _buffer self).
  { rewrite query_lines_all; [done | done |]. rewrite length_app. cbn. lia. }
  destruct (map (line_of model_dump_json) (written ++ _buffer self)) eqn:Hlines;
    [|exact Hall].
  apply map_eq_nil in Hlines. by rewrite Hlines.
Qed.

End AuditRoundTrip.

Definition single_logger : Audit.AuditLogger :=
  Audit.mkAuditLogger "logs/audit.log" true 100 [sample_entry 1] [].

Definition parse_sample (line : string) : Audit.line_outcome :=
  if String.eqb line (line_of sample_dump (sample_entry 1))
  then Audit.Parsed (sample_entry 1)
  else Audit.Skipped.

Lemma flush_then_query_witness :
  Audit.query parse_sample None None None None None None 100 Audit.IoOk
    (Audit.flush sample_dump Audit.IoOk single_logger)
  = [sample_entry 1].
Proof.
  apply (flush_then_query sample_dump parse_sample single_logger [] 100).
  - reflexivity.
  - intros entry Hin. apply list_elem_of_singleton in Hin as ->. reflexivity.
  - cbn. lia.
Defined.

(** ** Execution pipeline, for registered tools *)

Section PipelineProperties.
Import Router Audit.
Variable iter_errors : PyDict.t value -> value -> outcome (list Schema.ValidationError).
Variable model_dump_json : AuditEntry -> string.
Variable str_lower : string -> string.

Abbreviation run := (execute iter_errors model_dump_json str_lower).
Abbreviation validation self call :=
  (Registry.validate_input iter_errors (registry self) (call_tool_name call)
     (call_parameters call)).

Lemma log_ok_recorded env self tool call result :
  enabled self = true -> env_io env = IoOk ->
  recorded model_dump_json (log model_dump_json str_lower env self tool call result)
  = recorded model_dump_json self
    ++ [line_of model_dump_json (create_entry str_lower env tool call result)].
Proof.
  intros Henabled Hio. unfold log, recorded. rewrite Henabled, Hio. cbn [negb].
  destruct (_ >=? _)%Z.
  - rewrite _flush_ok. cbn. rewrite app_nil_r, map_app, app_assoc. done.
  - cbn. by rewrite map_app, app_assoc.
Qed.

Lemma execute_returns env self call verdict :
  validation self call = Returned verdict ->
  exists result, fst (run env self call) = Returned result.
Proof.
  intros Hvalid. destruct (fst (run env self call)) as [result|e] eqn:Hrun.
  - by exists result.
  - apply execute_raises_only_validation in Hrun. congruence.
Qed.

(** X17. For a registered tool and an enabled logger whose writes succeed.
    When the validation of the parameters returns, [execute] returns a
    result and, whatever the outcome (validation error, unauthorized, no
    adapter, adapter result or adapter exception), the logger gains exactly
    one line: that of an entry with the status, the error and the execution
    time of the returned result, the qualified name of the tool, the caller
    and the redacted parameters. When the validation raises, on a schema that
    the validator cannot read, [execute] raises the same exception and
    nothing is audited. *)
Theorem execute_audits_registered_once env self call tool :
  Registry.get (registry self) (call_tool_name call) = Some tool ->
  enabled (audit_logger self) = true ->
  env_io (log_env env) = IoOk ->
  (forall verdict,
      validation self call = Returned verdict ->
      exists result,
        fst (run env self call) = Returned result /\
        let entry := create_entry str_lower (log_env env) tool call result in
        recorded model_dump_json (audit_logger (snd (run env self call)))
        = recorded model_dump_json (audit_logger self)
          ++ [line_of model_dump_json entry] /\
        a_status entry = r_status result /\
        a_error entry = r_error result /\
        a_execution_time_ms entry = r_execution_time_ms result /\
        a_tool_name entry = qualified_name tool /\
        a_user_id entry = u_user_id (ctx_user (call_context call)) /\
        a_parameters entry
        = Redaction._redact_sensitive str_lower (call_parameters call)) /\
  (forall e,
      validation self call = Raised e ->
      run env self call = (Raised e, self)).
Proof.
  intros Hget Henabled Hio. split.
  - intros verdict Hvalid.
    destruct (execute_returns env self call verdict Hvalid) as [result Hrun].
    exists result. split; [exact Hrun|]. cbv zeta.
    rewrite (execute_registered_audited iter_errors model_dump_json str_lower
               env self call tool result Hget Hrun).
    split_and!; try reflexivity. by apply log_ok_recorded.
  - intros e Hvalid. by apply (execute_validation_raises _ _ _ _ _ _ tool).
Qed.

(** X18. A request whose validation returns and that fails validation or
    authorization never reaches an adapter: the result, [VALIDATION_ERROR]
    when validation fails and [UNAUTHORIZED] otherwise, carries no data, and
    result and audit logger are the same whatever adapters are registered.
    Validation is checked first, so an invalid request of an unauthorized
    caller is answered with the validation error. *)
Theorem execute_rejects_before_dispatch env self call tool adapters valid errors :
  Registry.get (registry self) (call_tool_name call) = Some tool ->
  validation self call = Returned (valid, errors) ->
  valid = false \/
  fst (Auth.authorize_request tool (ctx_user (call_context call)) (call_context call))
  = false ->
  let rejected := run env self call in
  let elsewhere :=
    run env (mkToolRouter (registry self) (audit_logger self) adapters) call in
  (exists result,
      fst rejected = Returned result /\
      r_status result = (if valid then UNAUTHORIZED else VALIDATION_ERROR) /\
      r_data result = None) /\
  fst elsewhere = fst rejected /\
  audit_logger (snd elsewhere) = audit_logger (snd rejected).
Proof.
  intros Hget Hvalid Hrejected rejected elsewhere. unfold rejected, elsewhere, execute.
  cbn [registry audit_logger _adapters]. rewrite Hget, Hvalid.
  destruct valid; cbn [negb]; [|split_and!; [eexists; split_and!|..]; reflexivity].
  destruct (Auth.authorize_request _ _ _) as [[] auth_error]; cbn in *;
    [|split_and!; [eexists; split_and!|..]; reflexivity].
  by destruct Hrejected.
Qed.

(** X19. An exception of the adapter does not leave [execute]: the result
    has status [ERROR], the text of the exception as its error, the code
    [EXECUTION_ERROR] and the elapsed time, and it is the result handed to
    the audit logger. *)
Theorem execute_adapter_exception env self call tool adapter errors auth_error e :
  Registry.get (registry self) (call_tool_name call) = Some tool ->
  validation self call = Returned (true, errors) ->
  Auth.authorize_request tool (ctx_user (call_context call)) (call_context call)
  = (true, auth_error) ->
  _adapters self !! t_domain tool = Some adapter ->
  _execute_with_adapter adapter tool (call_parameters call) (call_context call)
  = Raised e ->
  let result :=
    mkToolResult (call_tool_name call) ERROR None (Some (exn_str e))
      (Some "EXECUTION_ERROR") (elapsed_ms (time_time env 0) (time_time env 1)) [] in
  fst (run env self call) = Returned result /\
  audit_logger (snd (run env self call))
  = log model_dump_json str_lower (log_env env) (audit_logger self) tool call result.
Proof.
  intros Hget Hvalid Hauth Hadapter Hraised result.
  assert (Hrun : fst (run env self call) = Returned result).
  { unfold execute. rewrite Hget, Hvalid, Hauth, Hadapter, Hraised. reflexivity. }
  split; [exact Hrun|]. by apply execute_registered_audited.
Qed.

End PipelineProperties.

(** An adapter whose backend raises [KeyError('cluster')]; [str] of that
    exception is the [repr] of the key. *)
Definition failing_adapter : Router.AdapterExecutor :=
  fun action parameters context =>
    Router.AdapterRaises (OtherError "KeyError" "'cluster'").

Definition failing_router : Router.ToolRouter :=
  Router.register_adapter devops_router "devops" failing_adapter.

Definition admin_call : ToolCall :=
  mkToolCall "devops.restart_cluster" [] (request_context sre_admin).

(** A tool whose input schema names a type that does not exist, and a
    validator that raises on it. *)
Definition scale_cluster : ToolDefinition :=
  mkToolDefinition "scale_cluster" "devops" "Scale a cluster" "1.0.0"
    [("type", VStr "strin")] [] WRITE default_Permission [] [] false.

Definition scaling_router : Router.ToolRouter :=
  Router.mkToolRouter (snd (Registry.register Registry.empty scale_cluster))
    enabled_logger ∅.

Definition scale_call : ToolCall :=
  mkToolCall "devops.scale_cluster" [("replicas", VStr "3")] (request_context test_user).

Definition unreadable_schema (schema : PyDict.t value) (data : value)
  : outcome (list Schema.ValidationError) :=
  Raised (OtherError "UnknownType" "Unknown type 'strin'").

Lemma execute_audits_registered_once_witness :
  (exists result,
      fst (sample_execute devops_router restart_call) = Returned result /\
      recorded sample_dump
        (Router.audit_logger (snd (sample_execute devops_router restart_call)))
      = ["audit-1 devops.restart_cluster" +:+ Audit.newline] /\
      r_status result = UNAUTHORIZED) /\
  Router.execute unreadable_schema sample_dump lower_with_kelvin quarter_second
    scaling_router scale_call
  = (Raised (OtherError "UnknownType" "Unknown type 'strin'"), scaling_router).
Proof.
  split.
  - destruct (proj1 (execute_audits_registered_once always_valid sample_dump
                       lower_with_kelvin quarter_second devops_router restart_call
                       restart_cluster eq_refl eq_refl eq_refl) (true, []) eq_refl)
      as (result & Hrun & Hrecorded & Hstatus & _).
    exists result. split_and!; [exact Hrun | exact Hrecorded |].
    rewrite <- Hstatus. unfold sample_execute in Hrun.
    by injection Hrun as <-.
  - apply (proj2 (execute_audits_registered_once unreadable_schema sample_dump
                    lower_with_kelvin quarter_second scaling_router scale_call
                    scale_cluster eq_refl eq_refl eq_refl)).
    reflexivity.
Defined.

Lemma execute_rejects_before_dispatch_witness :
  (exists result,
      fst (sample_execute devops_router restart_call) = Returned result /\
      r_status result = UNAUTHORIZED /\
      r_data result = None) /\
  fst (sample_execute failing_router restart_call)
  = fst (sample_execute devops_router restart_call).
Proof.
  pose proof (execute_rejects_before_dispatch always_valid sample_dump lower_with_kelvin
                quarter_second devops_router restart_call restart_cluster
                (Router._adapters failing_router) true [] eq_refl eq_refl
                (or_intror eq_refl))
    as (Hresult & Hsame & _).
  split; [exact Hresult | exact Hsame].
Defined.

Lemma execute_adapter_exception_witness :
  fst (sample_execute failing_router admin_call)
  = Returned
      (mkToolResult "devops.restart_cluster" ERROR None (Some "'cluster'")
         (Some "EXECUTION_ERROR") 250%float []).
Proof.
  apply (execute_adapter_exception always_valid sample_dump lower_with_kelvin
           quarter_second failing_router admin_call restart_cluster failing_adapter
           [] None (OtherError "KeyError" "'cluster'"));
    reflexivity.
Defined.

(** ** The action that an adapter receives *)

Section AdapterAction.
Import Router.

Lemma append_nil (b : string) : "" +:+ b = b.
Proof. reflexivity. Qed.

Lemma append_cons x (a b : string) : String x a +:+ b = String x (a +:+ b).
Proof. reflexivity. Qed.

Lemma contains_char_app sep a b :
  PyStr.contains_char sep (a +:+ b)
  = PyStr.contains_char sep a || PyStr.contains_char sep b.
Proof.
  induction a as [|x a IH]; [done|]. rewrite append_cons. cbn [PyStr.contains_char].
  destruct (Ascii.eqb sep x); [done | exact IH].
Qed.

Lemma last_segment_no_sep sep s :
  PyStr.contains_char sep (PyStr.last_segment sep s) = false.
Proof.
  induction s as [|x s IH]; [done|]. cbn [PyStr.last_segment].
  destruct (PyStr.contains_char sep (String x s)) eqn:Hsep; [|exact Hsep].
  destruct (Ascii.eqb x sep && negb (PyStr.contains_char sep s)) eqn:Hlast; [|exact IH].
  apply andb_true_iff in Hlast as [_ Hlast]. by apply negb_true_iff in Hlast.
Qed.

Lemma last_segment_after sep a b :
  PyStr.contains_char sep b = false ->
  PyStr.last_segment sep (a +:+ String sep b) = b.
Proof.
  intros Hb. induction a as [|x a IH].
  - rewrite append_nil. cbn [PyStr.last_segment PyStr.contains_char].
    by rewrite Ascii.eqb_refl, Hb.
  - rewrite append_cons. cbn [PyStr.last_segment].
    assert (Hin : PyStr.contains_char sep (a +:+ String sep b) = true).
    { rewrite contains_char_app. cbn [PyStr.contains_char].
      rewrite Ascii.eqb_refl. apply orb_true_r. }
    assert (Hall : PyStr.contains_char sep (String x (a +:+ String sep b)) = true).
    { cbn [PyStr.contains_char]. rewrite Hin. by destruct (Ascii.eqb sep x). }
    rewrite Hall, Hin, andb_false_r. exact IH.
Qed.

Lemma last_segment_split sep s :
  PyStr.contains_char sep s = true ->
  exists prefix, s = prefix +:+ String sep (PyStr.last_segment sep s).
Proof.
  induction s as [|x s IH]; [done|]. intros Hsep. cbn [PyStr.last_segment].
  rewrite Hsep.
  destruct (Ascii.eqb x sep && negb (PyStr.contains_char sep s)) eqn:Hlast.
  - apply andb_true_iff in Hlast as [Hx _]. apply Ascii.eqb_eq in Hx as ->.
    by exists "".
  - assert (Hrest : PyStr.contains_char sep s = true).
    { cbn [PyStr.contains_char] in Hsep. rewrite Ascii.eqb_sym in Hlast.
      destruct (Ascii.eqb sep x); [|exact Hsep].
      by destruct (PyStr.contains_char sep s). }
    destruct (IH Hrest) as (prefix & Hprefix). exists (String x prefix).
    rewrite append_cons. by rewrite <- Hprefix.
Qed.

(** X20. The action name that [_execute_with_adapter] hands to the adapter
    is the part of the qualified name of the tool after its last dot: it
    contains no dot, and the qualified name is some prefix, a dot, and the
    action. *)
Theorem adapter_receives_action adapter tool parameters context :
  let action := PyStr.last_segment "." (qualified_name tool) in
  PyStr.contains_char "." action = false /\
  (exists prefix, qualified_name tool = prefix +:+ "." +:+ action) /\
  _execute_with_adapter adapter tool parameters context
  = _execute_with_adapter (fun _ => adapter action) tool parameters context.
Proof.
  intros action. split_and!.
  - apply last_segment_no_sep.
  - apply (last_segment_split "." (qualified_name tool)).
    unfold qualified_name.
    destruct (PyStr.contains_char "." (t_name tool)) eqn:Hname; cbn [negb]; [done|].
    rewrite contains_char_app. cbn [PyStr.contains_char Ascii.eqb].
    apply orb_true_r.
  - unfold _execute_with_adapter, action, qualified_name.
    destruct (PyStr.contains_char "." (t_name tool)) eqn:Hname; cbn [negb]; [done|].
    change ("." +:+ t_name tool) with (String "." (t_name tool)).
    by rewrite last_segment_after.
Qed.

End AdapterAction.

(** ** Conversations *)

Section ConversationStore.
Import Orchestrator.
Variable utcnow : nat -> Z.
Variable uuid4 : nat -> string.
Variable max_length : Z.
Variable ttl : Z.

(** The state after one reading of the clock. *)
Definition tick (w : World) : World :=
  mkWorld (_conversations w) (S (clock_reads w)) (uuid_reads w) (llm_calls w)
    (execute_calls w).

Lemma get_missing w conversation_id :
  _conversations w !! conversation_id = None ->
  get utcnow ttl conversation_id w = (Returned None, w).
Proof. intros Hlookup. unfold get. by rewrite Hlookup. Qed.

Lemma get_live w conversation_id conversation :
  _conversations w !! conversation_id = Some conversation ->
  (utcnow (clock_reads w) - c_updated_at conversation <= ttl)%Z ->
  get utcnow ttl conversation_id w = (Returned (Some conversation), tick w).
Proof.
  intros Hlookup Hlive. unfold get. rewrite Hlookup. unfold bind, datetime_utcnow.
  destruct (Z.gtb_spec (utcnow (clock_reads w) - c_updated_at conversation) ttl);
    [lia | done].
Qed.

Lemma get_expired w conversation_id conversation :
  _conversations w !! conversation_id = Some conversation ->
  (utcnow (clock_reads w) - c_updated_at conversation > ttl)%Z ->
  get utcnow ttl conversation_id w
  = (Returned None,
     set_conversations (base.delete conversation_id (_conversations w)) (tick w)).
Proof.
  intros Hlookup Hexpired. unfold get. rewrite Hlookup. unfold bind, datetime_utcnow.
  destruct (Z.gtb_spec (utcnow (clock_reads w) - c_updated_at conversation) ttl);
    [|lia].
  unfold delete. cbn. by rewrite Hlookup.
Qed.

(** X21. Expiry on access: [get] returns a stored conversation as long as
    the clock is at most [ttl] past its last update, and leaves the store as
    it is; once the clock is further, [get] returns [None] and the
    conversation is removed from the store. *)
Theorem get_evicts_expired w conversation_id conversation :
  _conversations w !! conversation_id = Some conversation ->
  let age := (utcnow (clock_reads w) - c_updated_at conversation)%Z in
  let after := get utcnow ttl conversation_id w in
  ((age <= ttl)%Z ->
   fst after = Returned (Some conversation) /\
   _conversations (snd after) = _conversations w) /\
  ((age > ttl)%Z ->
   fst after = Returned None /\
   _conversations (snd after) = base.delete conversation_id (_conversations w) /\
   _conversations (snd after) !! conversation_id = None).
Proof.
  intros Hlookup age after. unfold after, age. split.
  - intros Hlive. by rewrite (get_live w conversation_id conversation).
  - intros Hexpired. rewrite (get_expired w conversation_id conversation) by done.
    cbn. split_and!; [done | done | apply lookup_delete_eq].
Qed.

Lemma create_run w user system_prompt :
  exists conversation,
    fst (create utcnow uuid4 user system_prompt w) = Returned conversation /\
    _conversations (snd (create utcnow uuid4 user system_prompt w))
    = <[c_id conversation := conversation]> (_conversations w) /\
    c_id conversation = uuid4 (uuid_reads w) /\
    c_user conversation = user /\
    map (fun m => (m_role m, m_content m)) (c_messages conversation)
    = match system_prompt with
      | Some prompt => if truthy_str prompt then [("system", prompt)] else []
      | None => []
      end.
Proof.
  unfold create, bind, uuid_uuid4, datetime_utcnow, ret, set_conversations.
  destruct system_prompt as [prompt|]; [destruct (truthy_str prompt)|]; cbn;
    eexists; split_and!; reflexivity.
Qed.

(** Whether [get_or_create] finds the conversation it is asked for. *)
Definition alive (w : World) (conversation_id : option string) : Prop :=
  exists cid conversation,
    conversation_id = Some cid /\ cid <> "" /\
    _conversations w !! cid = Some conversation /\
    (utcnow (clock_reads w) - c_updated_at conversation <= ttl)%Z.

(** X22. [get_or_create] returns the stored conversation, and creates
    nothing, when it is given the id of a conversation that has not expired.
    In every other case (no id, an empty id, an unknown id, an expired
    conversation) it creates a conversation under the next uuid, not under
    the id it was given, stores it, and returns it; the new conversation
    belongs to the user and starts with the system prompt as its only message
    when the prompt is not empty, and with no message otherwise. *)
Theorem get_or_create_spec w conversation_id user system_prompt :
  let after := get_or_create utcnow uuid4 ttl conversation_id user system_prompt w in
  (forall cid conversation,
      conversation_id = Some cid -> cid <> "" ->
      _conversations w !! cid = Some conversation ->
      (utcnow (clock_reads w) - c_updated_at conversation <= ttl)%Z ->
      fst after = Returned conversation /\
      _conversations (snd after) = _conversations w /\
      uuid_reads (snd after) = uuid_reads w) /\
  (~ alive w conversation_id ->
   exists created,
     fst after = Returned created /\
     c_id created = uuid4 (uuid_reads w) /\
     c_user created = user /\
     map (fun m => (m_role m, m_content m)) (c_messages created)
     = match system_prompt with
       | Some prompt => if truthy_str prompt then [("system", prompt)] else []
       | None => []
       end /\
     _conversations (snd after) !! c_id created = Some created).
Proof.
  intros after. unfold after. split.
  - intros cid conversation -> Hcid Hlookup Hlive. unfold get_or_create, bind.
    destruct cid as [|c cid]; [done|]. cbn [truthy_str].
    by rewrite (get_live w _ conversation).
  - intros Hdead. unfold get_or_create, bind.
    assert (Hcreate : forall w', uuid_reads w' = uuid_reads w ->
      exists created,
        fst (create utcnow uuid4 user system_prompt w') = Returned created /\
        c_id created = uuid4 (uuid_reads w) /\
        c_user created = user /\
        map (fun m => (m_role m, m_content m)) (c_messages created)
        = match system_prompt with
          | Some prompt => if truthy_str prompt then [("system", prompt)] else []
          | None => []
          end /\
        _conversations (snd (create utcnow uuid4 user system_prompt w')) !! c_id created
        = Some created).
    { intros w' Hsame.
      destruct (create_run w' user system_prompt)
        as (created & Hrun & Hstore & Hid & Huser & Hmessages).
      exists created. rewrite Hrun, Hstore, <- Hsame.
      split_and!; [done..|]. apply lookup_insert_eq. }
    destruct conversation_id as [[|c cid]|]; cbn [truthy_str ret];
      [by apply Hcreate | | by apply Hcreate].
    destruct (_conversations w !! String c cid) as [conversation|] eqn:Hlookup.
    + destruct (Z.le_gt_cases (utcnow (clock_reads w) - c_updated_at conversation) ttl)
        as [Hlive|Hexpired].
      * destruct Hdead. exists (String c cid), conversation. done.
      * rewrite (get_expired w _ conversation) by (done || lia). by apply Hcreate.
    + rewrite get_missing by done. by apply Hcreate.
Qed.

Lemma add_message_live w conversation_id conversation role content tool_calls
    tool_call_id :
  _conversations w !! conversation_id = Some conversation ->
  (utcnow (clock_reads w) - c_updated_at conversation <= ttl)%Z ->
  add_message utcnow max_length ttl conversation_id role content tool_calls
    tool_call_id w
  = (Returned
       (Some (mkConversationMessage role content tool_calls tool_call_id
                (utcnow (S (clock_reads w))))),
     set_conversations
       (<[conversation_id :=
            append_and_prune max_length conversation
              (mkConversationMessage role content tool_calls tool_call_id
                 (utcnow (S (clock_reads w))))
              (utcnow (S (S (clock_reads w))))]> (_conversations w))
       (tick (tick (tick w)))).
Proof.
  intros Hlookup Hlive. unfold add_message, bind.
  by rewrite (get_live w _ conversation).
Qed.

(** X23. Below the cap, [add_message] on a conversation that has not
    expired appends: the stored messages are the old ones followed by the new
    message, the update time is refreshed, the message is returned, and no
    other conversation changes. *)
Theorem add_message_appends w conversation_id conversation role content tool_calls
    tool_call_id :
  _conversations w !! conversation_id = Some conversation ->
  (utcnow (clock_reads w) - c_updated_at conversation <= ttl)%Z ->
  (Z.of_nat (length (c_messages conversation)) + 1 <= max_length)%Z ->
  let message :=
    mkConversationMessage role content tool_calls tool_call_id
      (utcnow (S (clock_reads w))) in
  let after :=
    add_message utcnow max_length ttl conversation_id role content tool_calls
      tool_call_id w in
  fst after = Returned (Some message) /\
  (exists stored,
      _conversations (snd after) !! conversation_id = Some stored /\
      c_messages stored = c_messages conversation ++ [message] /\
      c_updated_at stored = utcnow (S (S (clock_reads w))) /\
      c_id stored = c_id conversation /\ c_user stored = c_user conversation) /\
  (forall other, other <> conversation_id ->
                 _conversations (snd after) !! other = _conversations w !! other).
Proof.
  intros Hlookup Hlive Hroom message after. unfold after.
  rewrite (add_message_live w _ conversation) by done. cbn. split_and!; [done| |].
  - eexists. split; [apply lookup_insert_eq|]. cbn. split_and!; try done.
    rewrite length_app. cbn.
    destruct (Z.gtb_spec (Z.of_nat (length (c_messages conversation) + 1)) max_length);
      [lia | done].
  - intros other Hother. by apply lookup_insert_ne.
Qed.

(** X24. A message for a conversation that is unknown or has expired is
    dropped without an error: [add_message] returns [None], and afterwards
    the store holds no conversation under that id. *)
Theorem add_message_dropped w conversation_id role content tool_calls tool_call_id :
  (_conversations w !! conversation_id = None \/
   exists conversation,
     _conversations w !! conversation_id = Some conversation /\
     (utcnow (clock_reads w) - c_updated_at conversation > ttl)%Z) ->
  let after :=
    add_message utcnow max_length ttl conversation_id role content tool_calls
      tool_call_id w in
  fst after = Returned None /\
  _conversations (snd after) !! conversation_id = None /\
  (forall other, other <> conversation_id ->
                 _conversations (snd after) !! other = _conversations w !! other).
Proof.
  intros Hdead after. unfold after, add_message, bind.
  destruct Hdead as [Hmissing|(conversation & Hlookup & Hexpired)].
  - rewrite get_missing by done. done.
  - rewrite (get_expired w _ conversation) by done. cbn.
    split_and!; [done | apply lookup_delete_eq |].
    intros other Hother. by apply lookup_delete_ne.
Qed.

Lemma fold_delete_lookup (ids : list string) : forall (cs : gmap string Conversation) id,
  fold_left (fun cs conv_id => base.delete conv_id cs) ids cs !! id
  = if decide (id ∈ ids) then None else cs !! id.
Proof.
  induction ids as [|first ids IH]; intros cs id; cbn [fold_left].
  - destruct (decide (id ∈ [])) as [Hin|]; [by apply elem_of_nil in Hin | done].
  - rewrite IH. destruct (decide (id ∈ ids)) as [Hin|Hout].
    + rewrite decide_True; [done|]. apply elem_of_cons. by right.
    + destruct (decide (first = id)) as [->|Hne].
      * rewrite decide_True by (apply elem_of_cons; by left). apply lookup_delete_eq.
      * rewrite lookup_delete_ne by done. rewrite decide_False; [done|].
        intros Hin. apply elem_of_cons in Hin as [->|Hin]; done.
Qed.

Lemma fold_delete_size (ids : list string) : forall (cs : gmap string Conversation),
  NoDup ids -> (forall id, id ∈ ids -> is_Some (cs !! id)) ->
  length ids + size (fold_left (fun cs conv_id => base.delete conv_id cs) ids cs)
  = size cs.
Proof.
  induction ids as [|first ids IH]; intros cs Hnodup Hstored; cbn [fold_left length];
    [done|].
  apply NoDup_cons in Hnodup as [Hfresh Hnodup].
  assert (Hfirst : is_Some (cs !! first)) by (apply Hstored, elem_of_cons; by left).
  assert (Hrest : forall id, id ∈ ids -> is_Some (base.delete first cs !! id)).
  { intros id Hin. rewrite lookup_delete_ne.
    - apply Hstored, elem_of_cons. by right.
    - intros ->. done. }
  pose proof (IH (base.delete first cs) Hnodup Hrest) as Hsize.
  rewrite map_size_delete_Some in Hsize by done.
  assert (size cs <> 0); [|lia].
  intros Hzero. apply map_size_empty_iff in Hzero.
  destruct Hfirst as [conv Hfirst]. by rewrite Hzero in Hfirst.
Qed.

(** X25. [cleanup_expired] removes exactly the conversations whose last
    update is more than [ttl] before the one clock reading it takes, keeps
    every other conversation as it is, and returns the number of
    conversations it removed. *)
Theorem cleanup_expired_spec w :
  let now := utcnow (clock_reads w) in
  let after := cleanup_expired utcnow ttl w in
  (forall id,
      _conversations (snd after) !! id
      = match _conversations w !! id with
        | Some conversation =>
            if expired_at ttl now conversation then None else Some conversation
        | None => None
        end) /\
  (exists removed,
      fst after = Returned removed /\
      removed + size (_conversations (snd after)) = size (_conversations w)).
Proof.
  intros now after. unfold after, cleanup_expired, bind, datetime_utcnow. cbn.
  fold now.
  set (expired := map fst (List.filter (fun item => expired_at ttl now (snd item))
                             (map_to_list (_conversations w)))).
  assert (Hexpired : forall id,
    id ∈ expired <->
    exists conversation,
      _conversations w !! id = Some conversation /\
      expired_at ttl now conversation = true).
  { intros id. unfold expired. rewrite list_elem_of_fmap. split.
    - intros ([id' conversation] & -> & Hin).
      apply list_elem_of_In, filter_In in Hin as [Hin Hold].
      apply list_elem_of_In, elem_of_map_to_list in Hin. by exists conversation.
    - intros (conversation & Hlookup & Hold). exists (id, conversation).
      split; [done|]. apply list_elem_of_In, filter_In. split; [|done].
      by apply list_elem_of_In, elem_of_map_to_list. }
  split.
  - intros id. rewrite fold_delete_lookup.
    destruct (decide (id ∈ expired)) as [Hin|Hout].
    + apply Hexpired in Hin as (conversation & -> & ->). done.
    + destruct (_conversations w !! id) as [conversation|] eqn:Hlookup; [|done].
      destruct (expired_at ttl now conversation) eqn:Hold; [|done].
      destruct Hout. apply Hexpired. by exists conversation.
  - eexists. split; [done|]. apply fold_delete_size.
    + unfold expired.
      eapply sublist_NoDup; [apply (NoDup_fst_map_to_list (_conversations w))|].
      apply (fmap_sublist fst), list_filter_sublist.
    + intros id Hin. apply Hexpired in Hin as (conversation & -> & _). by eexists.
Qed.

End ConversationStore.

Definition late_clock (k : nat) : Z := 7200.

Lemma get_evicts_expired_witness :
  fst (Orchestrator.get late_clock 3600 "c1" (world_with [msg "user" "hi"]))
  = Returned None.
Proof.
  refine (proj1 (proj2 (get_evicts_expired late_clock 3600
                          (world_with [msg "user" "hi"]) "c1" (chat [msg "user" "hi"]) _)
                   _)).
  - reflexivity.
  - unfold late_clock. cbn. lia.
Defined.

Lemma add_message_appends_witness :
  fst (Orchestrator.add_message frozen_clock 5 3600 "c1" "user" "hi" None None
         (world_with [msg "system" "System"]))
  = Returned (Some (msg "user" "hi")).
Proof.
  refine (proj1 (add_message_appends frozen_clock 5 3600
                   (world_with [msg "system" "System"]) "c1"
                   (chat [msg "system" "System"]) "user" "hi" None None _ _ _)).
  - reflexivity.
  - unfold frozen_clock. cbn. lia.
  - cbn. lia.
Defined.

Lemma add_message_dropped_witness :
  fst (Orchestrator.add_message frozen_clock 5 3600 "c2" "user" "hi" None None
         (world_with [msg "system" "System"]))
  = Returned None.
Proof.
  refine (proj1 (add_message_dropped frozen_clock 5 3600
                   (world_with [msg "system" "System"]) "c2" "user" "hi" None None _)).
  left. reflexivity.
Defined.

(** ** Agent loop: first turn, errors, arguments *)

Section GatewayProperties.
Import Orchestrator.
Variable utcnow : nat -> Z.
Variable llm_complete :
  nat -> list ConversationMessage -> option (list value) -> outcome LLMResponse.
Variable mcp_client_execute : nat -> string -> value -> string -> outcome ToolResult.
Variable json_loads : string -> option value.
Variable json_dumps : value -> string.
Variable max_length : Z.
Variable ttl : Z.

(** A computation that returns and leaves the records of the model calls
    and of the client calls as they are. *)
Definition silent {A} (m : M A) : Prop :=
  forall w, exists a w',
    m w = (Returned a, w') /\
    llm_calls w' = llm_calls w /\
    execute_calls w' = execute_calls w.

Lemma silent_ret {A} (a : A) : silent (ret a).
Proof. intros w. by exists a, w. Qed.

Lemma silent_bind {A B} (m : M A) (k : A -> M B) :
  silent m -> (forall a, silent (k a)) -> silent (bind m k).
Proof.
  intros Hm Hk w. destruct (Hm w) as (a & w1 & Hrun & Hl & He).
  destruct (Hk a w1) as (b & w2 & Hrun2 & Hl2 & He2).
  exists b, w2. unfold bind. rewrite Hrun. split_and!; congruence.
Qed.

Lemma silent_datetime_utcnow : silent (datetime_utcnow utcnow).
Proof. intros w. by eexists _, _. Qed.

Lemma silent_delete conversation_id : silent (delete conversation_id).
Proof.
  intros w. unfold delete. destruct (_conversations w !! conversation_id);
    by eexists _, _.
Qed.

Lemma silent_get conversation_id : silent (get utcnow ttl conversation_id).
Proof.
  intros w. unfold get.
  destruct (_conversations w !! conversation_id) as [conversation|];
    [|by exists None, w].
  revert w. apply silent_bind; [apply silent_datetime_utcnow|]. intros now.
  destruct (now - c_updated_at conversation >? ttl)%Z; [|apply silent_ret].
  apply silent_bind; [apply silent_delete|]. intros _. apply silent_ret.
Qed.

Lemma silent_add_message conversation_id role content tool_calls tool_call_id :
  silent (add_message utcnow max_length ttl conversation_id role content tool_calls
            tool_call_id).
Proof.
  unfold add_message. apply silent_bind; [apply silent_get|].
  intros [conversation|]; [|apply silent_ret].
  apply silent_bind; [apply silent_datetime_utcnow|]. intros ts.
  apply silent_bind; [apply silent_datetime_utcnow|]. intros now.
  intros w. by eexists _, _.
Qed.

Lemma silent_get_messages conversation_id include_system :
  silent (get_messages utcnow ttl conversation_id include_system).
Proof.
  unfold get_messages. apply silent_bind; [apply silent_get|].
  intros [conversation|]; apply silent_ret.
Qed.

Abbreviation process_with_tools :=
  (_process_with_tools utcnow llm_complete mcp_client_execute json_loads json_dumps
     max_length ttl).


(** X27. The loop does not catch the errors of its collaborators. An
    exception of the model in the first turn leaves [_process_with_tools] as
    that exception, before any call of the execution client. When the first
    turn requests a tool call whose arguments parse and the client raises,
    that exception leaves [_process_with_tools] too, after the one model call
    and the one client call. *)
Theorem process_with_tools_propagates max_tool_iterations w conversation_id tools
    request_id e :
  (0 < max_tool_iterations)%Z ->
  let after := process_with_tools max_tool_iterations conversation_id tools request_id w in
  ((forall messages,
       llm_complete (llm_calls w) messages
         (if truthy_list tools then Some tools else None) = Raised e) ->
   fst after = Raised e /\ execute_calls (snd after) = execute_calls w) /\
  (forall response first others parameters,
      (forall messages,
          llm_complete (llm_calls w) messages
            (if truthy_list tools then Some tools else None) = Returned response) ->
      tool_calls response = Some (first :: others) ->
      match tc_arguments first with
      | VStr text => json_loads text
      | arguments => Some arguments
      end = Some parameters ->
      mcp_client_execute (length (execute_calls w)) (tc_name first) parameters request_id
      = Raised e ->
      fst after = Raised e /\
      llm_calls (snd after) = S (llm_calls w) /\
      execute_calls (snd after) = execute_calls w ++ [(tc_name first, parameters)]).
Proof.
  intros Hbudget after. unfold after, _process_with_tools.
  destruct (Z.to_nat max_tool_iterations) as [|remaining] eqn:Hn; [lia|]. split.
  - intros Hmodel.
    assert (Hrun : exists w',
      tool_loop utcnow llm_complete mcp_client_execute json_loads json_dumps max_length
        ttl (S remaining) 0 conversation_id tools request_id w
      = (Raised e, w') /\
      execute_calls w' = execute_calls w).
    { cbn [tool_loop]. unfold bind at 1.
      destruct (silent_get_messages conversation_id true w)
        as (messages & w1 & -> & Hl & He).
      unfold bind at 1, llm_call at 1. rewrite Hl, Hmodel.
      eexists. split; [reflexivity|]. done. }
    destruct Hrun as (w' & -> & He). done.
  - intros response first others parameters Hmodel Hcalls Hparsed Hclient.
    assert (Hrun : exists w',
      tool_loop utcnow llm_complete mcp_client_execute json_loads json_dumps max_length
        ttl (S remaining) 0 conversation_id tools request_id w
      = (Raised e, w') /\
      llm_calls w' = S (llm_calls w) /\
      execute_calls w' = execute_calls w ++ [(tc_name first, parameters)]).
    { cbn [tool_loop]. unfold bind at 1.
      destruct (silent_get_messages conversation_id true w)
        as (messages & w1 & -> & Hl & He).
      unfold bind at 1, llm_call at 1. rewrite Hl, Hmodel, Hcalls.
      unfold bind at 1.
      destruct (silent_add_message conversation_id "assistant"
                  (str_or (content response) "") (Some (first :: others)) None
                  (mkWorld (_conversations w1) (clock_reads w1) (uuid_reads w1)
                     (S (llm_calls w)) (execute_calls w1)))
        as (added & w2 & Hadd & Hl2 & He2).
      unfold add_assistant_message. rewrite Hadd.
      cbn [for_each]. unfold bind at 1 2 3, _execute_tool_call.
      cbv zeta. rewrite Hparsed. unfold client_call. cbn in Hl2, He2.
      rewrite He2, He, Hclient.
      eexists. split; [reflexivity|]. cbn. by rewrite Hl2. }
    destruct Hrun as (w' & -> & Hl & He). done.
Qed.

(** X28. Arguments of a tool call that are not valid JSON never reach the
    execution client: the call is answered with a [VALIDATION_ERROR] result
    and nothing else happens. Arguments that parse are sent to the client as
    parsed, and arguments that are not a string are sent as they are; in both
    cases what the client answers, result or exception, is the outcome. *)
Theorem execute_tool_call_arguments tool_call request_id w :
  let after := _execute_tool_call mcp_client_execute json_loads tool_call request_id w in
  (forall text,
      tc_arguments tool_call = VStr text -> json_loads text = None ->
      after
      = (Returned (ToolResult_ (tc_name tool_call) VALIDATION_ERROR None
                     (Some "Invalid tool call arguments") None), w)) /\
  (forall parameters,
      (exists text, tc_arguments tool_call = VStr text /\ json_loads text = Some parameters)
      \/ (tc_arguments tool_call = parameters /\ forall text, parameters <> VStr text) ->
      fst after
      = mcp_client_execute (length (execute_calls w)) (tc_name tool_call) parameters
          request_id /\
      execute_calls (snd after) = execute_calls w ++ [(tc_name tool_call, parameters)] /\
      llm_calls (snd after) = llm_calls w).
Proof.
  intros after. unfold after, _execute_tool_call. cbv zeta. split.
  - intros text -> ->. done.
  - intros parameters [(text & -> & ->)|[<- Hother]]; [done|].
    destruct (tc_arguments tool_call); try done. by destruct (Hother s).
Qed.

End GatewayProperties.

Definition llm_down (k : nat) (messages : list Orchestrator.ConversationMessage)
    (tools : option (list value)) : outcome Orchestrator.LLMResponse :=
  Raised (Exception "model unavailable").

Lemma process_with_tools_propagates_witness :
  fst (Orchestrator._process_with_tools frozen_clock llm_down execute_succeeds
         loads_empty_object dumps_empty_object 50 3600 3 "c1" [] "req1"
         (world_with [msg "user" "Do something"]))
  = Raised (Exception "model unavailable").
Proof.
  refine (proj1 (proj1 (process_with_tools_propagates frozen_clock llm_down
                          execute_succeeds loads_empty_object dumps_empty_object 50 3600 3
                          (world_with [msg "user" "Do something"]) "c1" [] "req1"
                          (Exception "model unavailable") _) _)).
  - lia.
  - intros messages. reflexivity.
Defined.

(** ** The tools offered to the model *)

Section ToolsForUser.
Import Orchestrator.






End ToolsForUser.

(** ** One request, end to end *)

Section ProcessMessage.
Import Orchestrator.
Variable utcnow : nat -> Z.
Variable uuid4 : nat -> string.
Variable llm_complete :
  nat -> list ConversationMessage -> option (list value) -> outcome LLMResponse.
Variable mcp_client_execute : nat -> string -> value -> string -> outcome ToolResult.
Variable json_loads : string -> option value.
Variable json_dumps : value -> string.
Variable max_length : Z.
Variable ttl : Z.
Variable max_tool_iterations : Z.
Variable system_prompt : string.

Lemma bind_returned {A B} (m : M A) (k : A -> M B) w a w' :
  m w = (Returned a, w') -> bind m k w = k a w'.
Proof. intros Hrun. unfold bind. by rewrite Hrun. Qed.

Lemma append_and_prune_below conversation message now :
  (Z.of_nat (length (c_messages conversation)) + 1 <= max_length)%Z ->
  append_and_prune max_length conversation message now
  = mkConversation (c_id conversation) (c_user conversation)
      (c_messages conversation ++ [message]) (c_created_at conversation) now
      (c_metadata conversation).
Proof.
  intros Hroom. unfold append_and_prune. cbn. rewrite length_app. cbn.
  destruct (Z.gtb_spec (Z.of_nat (length (c_messages conversation) + 1)) max_length);
    [lia | done].
Qed.

(** The roles and contents of a list of messages. *)
Definition transcript (messages : list ConversationMessage) : list (string * string) :=
  map (fun m => (m_role m, m_content m)) messages.

(** X30. A first message, answered directly. When no conversation id is
    given, the gateway has a system prompt, the cap is at least three, the
    clock never shows more than [ttl] between two readings, and the model
    answers without tool calls, [process_message] returns the content of the
    answer under a request id that is the first uuid drawn and a conversation
    id that is the second; the conversation stored under that id then reads:
    system prompt, user message, answer. The model was called once and the
    execution client not at all. *)
Theorem process_message_new_conversation discovered user_message user allowed_domains
    w response answer :
  system_prompt <> "" ->
  (3 <= max_length)%Z ->
  (0 < max_tool_iterations)%Z ->
  (forall i j, (utcnow i - utcnow j <= ttl)%Z) ->
  (forall messages tools, llm_complete (llm_calls w) messages tools = Returned response) ->
  tool_calls response = None ->
  content response = Some answer ->
  answer <> "" ->
  let after :=
    process_message utcnow uuid4 llm_complete mcp_client_execute json_loads json_dumps
      max_length ttl max_tool_iterations system_prompt discovered user_message user None
      allowed_domains w in
  exists stored,
    fst after
    = Returned (mkChatResult (uuid4 (S (uuid_reads w))) answer (uuid4 (uuid_reads w))) /\
    _conversations (snd after) !! uuid4 (S (uuid_reads w)) = Some stored /\
    transcript (c_messages stored)
    = [("system", system_prompt); ("user", user_message); ("assistant", answer)] /\
    c_user stored = user /\
    llm_calls (snd after) = S (llm_calls w) /\
    execute_calls (snd after) = execute_calls w.
Proof.
  intros Hprompt Hcap Hbudget Hclock Hmodel Hcalls Hcontent Hanswer after.
  assert (Htruthy : forall s, s <> "" -> truthy_str s = true) by (by intros [|c s]).
  assert (Hlive : forall i j, (utcnow i - utcnow j >? ttl)%Z = false).
  { intros i j. specialize (Hclock i j). lia. }
  assert (Hrun : exists w',
    process_message utcnow uuid4 llm_complete mcp_client_execute json_loads json_dumps
      max_length ttl max_tool_iterations system_prompt discovered user_message user None
      allowed_domains w
    = (Returned (mkChatResult (uuid4 (S (uuid_reads w))) answer (uuid4 (uuid_reads w))),
       w') /\
    (exists stored,
        _conversations w' !! uuid4 (S (uuid_reads w)) = Some stored /\
        transcript (c_messages stored)
        = [("system", system_prompt); ("user", user_message); ("assistant", answer)] /\
        c_user stored = user) /\
    llm_calls w' = S (llm_calls w) /\
    execute_calls w' = execute_calls w).
  { unfold process_message.
    erewrite bind_returned by reflexivity.
    erewrite bind_returned.
    2:{ unfold get_or_create, create, bind, ret, uuid_uuid4, datetime_utcnow,
          set_conversations. cbn. rewrite (Htruthy system_prompt Hprompt). reflexivity. }
    cbn [c_id].
    erewrite bind_returned.
    2:{ unfold add_user_message. eapply add_message_live.
        - cbn. apply lookup_insert_eq.
        - cbn. apply Hclock. }
    unfold _process_with_tools.
    destruct (Z.to_nat max_tool_iterations) as [|remaining] eqn:Hn; [lia|].
    erewrite bind_returned.
    2:{ cbn [tool_loop]. erewrite bind_returned.
        2:{ unfold get_messages. erewrite bind_returned.
            2:{ eapply get_live.
                - cbn. apply lookup_insert_eq.
                - cbn. apply Hclock. }
            reflexivity. }
        erewrite bind_returned.
        2:{ unfold llm_call. cbn. rewrite Hmodel. reflexivity. }
        rewrite Hcalls. reflexivity. }
    rewrite Hcontent. cbn [str_or]. rewrite (Htruthy answer Hanswer).
    erewrite bind_returned.
    2:{ unfold add_assistant_message. eapply add_message_live.
        - cbn. apply lookup_insert_eq.
        - cbn. apply Hclock. }
    eexists. split; [reflexivity|]. cbn. split_and!; [|done..].
    eexists. split; [apply lookup_insert_eq|].
    assert (Hfirst : forall message now (conversation : Conversation),
      length (c_messages conversation) = 1 ->
      append_and_prune max_length conversation message now
      = mkConversation (c_id conversation) (c_user conversation)
          (c_messages conversation ++ [message]) (c_created_at conversation) now
          (c_metadata conversation)).
    { intros message now conversation Hone. apply append_and_prune_below. lia. }
    rewrite (Hfirst _ _ (mkConversation _ _ [_] _ _ _)) by done.
    rewrite append_and_prune_below by (cbn; lia). done. }
  destruct Hrun as (w' & Hrun & (stored & Hstored & Htranscript & Huser) & Hl & He).
  exists stored. unfold after. rewrite Hrun. done.
Qed.

End ProcessMessage.

Definition numbered_uuid (k : nat) : string :=
  match k with O => "req-1" | _ => "conv-1" end.

Definition greeting : Orchestrator.LLMResponse :=
  Orchestrator.mkLLMResponse (Some "Hello! How can I help you?") None "stop" [].

Definition answers_directly (k : nat) (messages : list Orchestrator.ConversationMessage)
    (tools : option (list value)) : outcome Orchestrator.LLMResponse :=
  Returned greeting.

Definition no_conversations : Orchestrator.World := Orchestrator.mkWorld ∅ 0 0 0 [].

Lemma process_message_new_conversation_witness :
  fst (Orchestrator.process_message frozen_clock numbered_uuid answers_directly
         execute_succeeds loads_empty_object dumps_empty_object 50 3600 10
         "You are helpful." (Returned []) "Hello" test_user None None no_conversations)
  = Returned (Orchestrator.mkChatResult "conv-1" "Hello! How can I help you?" "req-1").
Proof.
  destruct (process_message_new_conversation frozen_clock numbered_uuid answers_directly
              execute_succeeds loads_empty_object dumps_empty_object 50 3600 10
              "You are helpful." (Returned []) "Hello" test_user None no_conversations
              greeting "Hello! How can I help you?")
    as (stored & Hresult & _).
  - discriminate.
  - lia.
  - lia.
  - intros i j. unfold frozen_clock. lia.
  - intros messages tools. reflexivity.
  - reflexivity.
  - reflexivity.
  - discriminate.
  - exact Hresult.
Defined.
